(** * llama_cloud/api_utils.py: resolution, asset fetching and result adaptation

    A shallow embedding of
    [llama_index/indices/managed/llama_cloud/api_utils.py].

    The module talks to a remote service through a generated client.  The
    service, the HTTP transport and [uuid.uuid4] are outside the module: they
    are gathered in an environment record [Env] whose answers may depend on
    the history of the calls made so far.  A Python function becomes a
    computation in the monad [Py]: it takes the current [World] (the log of
    remote calls and the number of uuids drawn), and gives back either a
    value or a raised exception, together with the new world. *)

From stdpp Require Import base option list strings gmap pretty.
From Stdlib Require Import ZArith Lia Strings.Ascii Strings.Byte
  Floats.PrimFloat.

Open Scope string_scope.
Open Scope Z_scope.

(** ** Exceptions *)

(** [ApiError] is [llama_cloud.core.api_error.ApiError], [HTTPStatusError] is
    httpx's (only [exception.response.status_code] is read from it).
    [ValidationError] is the one a model of the generated client raises when
    it is built with a value its declaration refuses; it names the model and
    the field. *)
Inductive exn : Type :=
| ApiError (status_code : Z) (body : string)
| HTTPStatusError (response_status_code : Z)
| ValueError (msg : string)
| AttributeError (msg : string)
| OtherError (msg : string)
| ValidationError (model field : string).

Inductive result (A : Type) : Type :=
| Return (a : A)
| Raise (e : exn).
Arguments Return {A} a.
Arguments Raise {A} e.

(** ** Data of the generated client *)

Record Project : Type := mkProject {
  Project_id : string;
  Project_name : string
}.

Record Pipeline : Type := mkPipeline {
  Pipeline_id : string;
  Pipeline_name : string;
  Pipeline_project_id : string;
  Pipeline_type : string
}.

Record RetrieverPipeline : Type := mkRetrieverPipeline {
  RetrieverPipeline_name : option string;
  RetrieverPipeline_pipeline_id : string
}.

Record Retriever : Type := mkRetriever {
  Retriever_id : string;
  Retriever_project_id : string;
  Retriever_name : string;
  Retriever_pipelines : list RetrieverPipeline
}.

(** [PipelineType.MANAGED.value] of the generated client. *)
Definition PipelineType_MANAGED_value : string := "MANAGED".

(** Values stored in a metadata dictionary ([Dict[str, Any]]). *)
Inductive PyVal : Type :=
| PyNone
| PyBool (b : bool)
| PyInt (z : Z)
| PyStr (s : string).

Abbreviation bytes := (list byte).

(** The [node] of a raw screenshot record, and the record with its score. *)
Record PageScreenshotMetadata : Type := mkPageScreenshotMetadata {
  ps_page_index : Z;
  ps_file_id : string;
  ps_metadata : option (gmap string PyVal)
}.

Record PageScreenshotNodeWithScore : Type := mkPageScreenshotNodeWithScore {
  psn_node : PageScreenshotMetadata;
  psn_score : float
}.

Record PageFigureMetadata : Type := mkPageFigureMetadata {
  pf_figure_name : string;
  pf_file_id : string;
  pf_page_index : Z;
  pf_metadata : option (gmap string PyVal)
}.

Record PageFigureNodeWithScore : Type := mkPageFigureNodeWithScore {
  pfn_node : PageFigureMetadata;
  pfn_score : float
}.

(** Modelled from the spec: [ImageNode] and [NodeWithScore] are declared in
    [llama_index.core.schema], not in this file.  The spec's scored node
    pairs a content node, an image payload with a metadata mapping, with a
    relevance score; these are the fields that the module sets. *)
Record ImageNode : Type := mkImageNode {
  image : string;
  metadata : gmap string PyVal
}.

Record NodeWithScore : Type := mkNodeWithScore {
  node : ImageNode;
  score : option float
}.

(** ** HTTP *)

Record Request : Type := mkRequest {
  req_method : string;
  req_url : string;
  req_params : list (string * string);
  req_headers : list (string * string);
  req_timeout : Z
}.

Record Response : Type := mkResponse {
  status_code : Z;
  content : bytes;
  text : string
}.

(** What the module reads from a client: [client._client_wrapper]. *)
Record Client : Type := mkClient {
  get_base_url : string;
  get_headers : list (string * string)
}.

(** ** The world *)

(** One entry per call that leaves the module. *)
Inductive Call : Type :=
| Call_get_retriever (retriever_id project_id : string)
| Call_list_retrievers (project_id name : string)
| Call_get_project (project_id : string)
| Call_list_projects (project_name organization_id : option string)
| Call_get_pipeline (pipeline_id : string)
| Call_search_pipelines (project_id : string) (pipeline_name : option string)
    (pipeline_type : string)
| Call_send (request : Request).

Record World : Type := mkWorld {
  calls : list Call;
  uuids_drawn : nat
}.

(** The collaborators.  Every remote operation sees the calls made before it,
    so that the same request can be answered differently on a second try. *)
Record Env : Type := mkEnv {
  env_get_retriever : list Call → string → string → result Retriever;
  env_list_retrievers : list Call → string → string → result (list Retriever);
  env_get_project : list Call → string → result Project;
  env_list_projects :
    list Call → option string → option string → result (list Project);
  env_get_pipeline : list Call → string → result Pipeline;
  env_search_pipelines :
    list Call → string → option string → string → result (list Pipeline);
  env_send : list Call → Request → result Response;
  (** [env_uuid4 n] is the text of the [n]-th value drawn from [uuid.uuid4]. *)
  env_uuid4 : nat → string;
  env_urljoin : string → string → string
}.

(** ** The monad of Python computations *)

Definition Py (A : Type) : Type := World → result A * World.

Definition ret {A} (a : A) : Py A := λ w, (Return a, w).

Definition raise {A} (e : exn) : Py A := λ w, (Raise e, w).

Definition bind {A B} (m : Py A) (k : A → Py B) : Py B :=
  λ w, match m w with
       | (Return a, w') => k a w'
       | (Raise e, w') => (Raise e, w')
       end.

Declare Scope py_scope.
Delimit Scope py_scope with py.
Notation "x ⇐ m ;; k" := (bind m (λ x, k))
  (at level 100, m at next level, right associativity) : py_scope.
Open Scope py_scope.

(** The world once the call [c] has been made. *)
Definition after_call (w : World) (c : Call) : World :=
  mkWorld (calls w ++ [c]) (uuids_drawn w).

(** The calls made between [w] and a later world [w']. *)
Definition new_calls (w w' : World) : list Call :=
  drop (length (calls w)) (calls w').

(** The calls of the lookup by name. *)
Definition is_listing (c : Call) : bool :=
  match c with
  | Call_list_retrievers _ _ | Call_list_projects _ _
  | Call_search_pipelines _ _ _ => true
  | _ => false
  end.

(** A remote call: log it, and let the environment answer from the history. *)
Definition remote {A} (c : Call) (answer : list Call → result A) : Py A :=
  λ w, (answer (calls w), after_call w c).

(** [str(uuid.uuid4())]. *)
Definition uuid4_str (E : Env) : Py string :=
  λ w, (Return (env_uuid4 E (uuids_drawn w)),
        mkWorld (calls w) (S (uuids_drawn w))).

(** Python's truth value of an [Optional[str]]: [None] and [""] are false. *)
Definition truthy (s : option string) : bool :=
  match s with
  | Some s => negb (String.eqb s "")
  | None => false
  end.

(** How an f-string renders an [Optional[str]]. *)
Definition format_opt (s : option string) : string := default "None" s.

(** [s] occurs in [msg]. *)
Definition occurs_in (s msg : string) : Prop :=
  ∃ before after, msg = before +:+ s +:+ after.

(** ** Retry policy *)

Definition is_retryable_http_error (exception : exn) : bool :=
  match exception with
  | ApiError status_code _ => (500 <=? status_code) && (status_code <? 600)
  | HTTPStatusError status_code => (500 <=? status_code) && (status_code <? 600)
  | _ => false
  end.

(** tenacity's loop for [retry(wait=..., stop=stop_after_attempt(n),
    retry=retry_if_exception(p), reraise=True)].  [left] is the number of
    attempts still allowed after the one being made ([n] minus
    [attempt_number]).  A value is returned as it is; an exception that [p]
    rejects is raised as it is; an exception that [p] accepts is raised as it
    is (this is [reraise=True]) when no attempt is left, and leads to the next
    attempt otherwise.  The pause between two attempts does not change the
    world. *)
Fixpoint retrying {A} (p : exn → bool) (left : nat) (func : Py A) : Py A :=
  λ w, match func w with
       | (Return a, w') => (Return a, w')
       | (Raise e, w') =>
           if p e then
             match left with
             | O => (Raise e, w')
             | S left' => retrying p left' func w'
             end
           else (Raise e, w')
       end.

Definition stop_after_attempt : nat := 5.

Definition retry_on_failure {A} (func : Py A) : Py A :=
  retrying is_retryable_http_error (stop_after_attempt - 1) func.

(** The outcome of the [k]-th successive call of [func] from [w], counting
    from 0. *)
Fixpoint attempt {A} (func : Py A) (k : nat) (w : World) : result A * World :=
  match k with
  | O => func w
  | S k' => attempt func k' (snd (func w))
  end.

(** ** Entity resolver *)

(** An [Optional[str]] that passes [if x:], with the string it holds. *)
Definition if_truthy (s : option string) : option string :=
  if truthy s then s else None.

(** [Retriever(id=..., project_id=..., name=..., pipelines=...)].  The
    client declares [name] as a required string: the model refuses [None],
    once its arguments have been computed. *)
Definition Retriever_init (id project_id : string) (name : option string)
    (pipelines : list RetrieverPipeline) : Py Retriever :=
  match name with
  | Some name => ret (mkRetriever id project_id name pipelines)
  | None => raise (ValidationError "Retriever" "name")
  end.

Definition resolve_retriever (E : Env) (client : Client) (project : Project)
    (retriever_name retriever_id : option string) (persisted : bool)
  : Py (option Retriever) :=
  if negb persisted then
    id ⇐ uuid4_str E ;;
    retriever ⇐ Retriever_init id (Project_id project) retriever_name [] ;;
    ret (Some retriever)
  else
    match if_truthy retriever_id with
    | Some rid =>
        retriever ⇐ remote (Call_get_retriever rid (Project_id project))
                      (λ h, env_get_retriever E h rid (Project_id project)) ;;
        ret (Some retriever)
    | None =>
        match if_truthy retriever_name with
        | Some name =>
            retrievers ⇐ remote (Call_list_retrievers (Project_id project) name)
                           (λ h, env_list_retrievers E h (Project_id project) name) ;;
            ret (List.find
                   (λ retriever, bool_decide (Retriever_name retriever = name))
                   retrievers)
        | None => ret None
        end
    end.

Definition resolve_project (E : Env) (client : Client)
    (project_name project_id organization_id : option string) : Py Project :=
  match project_id with
  | Some project_id =>
      remote (Call_get_project project_id) (λ h, env_get_project E h project_id)
  | None =>
      projects ⇐ remote (Call_list_projects project_name organization_id)
                   (λ h, env_list_projects E h project_name organization_id) ;;
      match projects with
      | [] =>
          raise (ValueError ("No project found with name " +:+ format_opt project_name))
      | [project] => ret project
      | _ :: _ :: _ =>
          raise (ValueError
                   ("Multiple projects found with name " +:+ format_opt project_name
                    +:+ ". Please specify organization_id."))
      end
  end.

Definition resolve_pipeline (E : Env) (client : Client)
    (pipeline_id : option string) (project : option Project)
    (pipeline_name : option string) : Py Pipeline :=
  match pipeline_id with
  | Some pipeline_id =>
      remote (Call_get_pipeline pipeline_id) (λ h, env_get_pipeline E h pipeline_id)
  | None =>
      match project with
      | None => raise (AttributeError "'NoneType' object has no attribute 'id'")
      | Some project =>
          pipelines ⇐ remote
                        (Call_search_pipelines (Project_id project) pipeline_name
                           PipelineType_MANAGED_value)
                        (λ h, env_search_pipelines E h (Project_id project)
                                pipeline_name PipelineType_MANAGED_value) ;;
          match pipelines with
          | [] =>
              raise (ValueError
                       ("Unknown index name " +:+ format_opt pipeline_name
                        +:+ ". Please confirm an index with this name exists."))
          | [pipeline] => ret pipeline
          | _ :: _ :: _ =>
              raise (ValueError
                       ("Multiple pipelines found with name "
                        +:+ format_opt pipeline_name
                        +:+ " in project " +:+ Project_name project))
          end
      end
  end.

Definition resolve_project_and_pipeline (E : Env) (client : Client)
    (pipeline_name pipeline_id project_name project_id organization_id : option string)
  : Py (Project * Pipeline) :=
  (* resolve pipeline by ID *)
  locals ⇐ match pipeline_id with
           | Some _ =>
               pipeline ⇐ resolve_pipeline E client pipeline_id None None ;;
               ret (Some pipeline, Some (Pipeline_project_id pipeline))
           | None => ret (None, project_id)
           end ;;
  let '(pipeline, project_id) := locals in
  (* resolve project *)
  project ⇐ resolve_project E client project_name project_id organization_id ;;
  (* resolve pipeline by name *)
  pipeline ⇐ match pipeline_id with
             | None =>
                 pipeline ⇐ resolve_pipeline E client None (Some project)
                              pipeline_name ;;
                 ret (Some pipeline)
             | Some _ => ret pipeline
             end ;;
  match pipeline with
  | Some pipeline => ret (project, pipeline)
  | None => raise (OtherError "UnboundLocalError: pipeline")
  end.

(** ** Asset fetcher *)

Definition _build_get_page_screenshot_request (E : Env) (client : Client)
    (file_id : string) (page_index : Z) (project_id : string) : Request :=
  mkRequest "GET"
    (env_urljoin E (get_base_url client +:+ "/")
       ("api/v1/files/" +:+ file_id +:+ "/page_screenshots/" +:+ pretty page_index))
    [("project_id", project_id)]
    (get_headers client)
    60.

Definition _build_get_page_figure_request (E : Env) (client : Client)
    (file_id : string) (page_index : Z) (figure_name project_id : string)
  : Request :=
  mkRequest "GET"
    (env_urljoin E (get_base_url client +:+ "/")
       ("api/v1/files/" +:+ file_id +:+ "/page-figures/" +:+ pretty page_index
        +:+ "/" +:+ figure_name))
    [("project_id", project_id)]
    (get_headers client)
    60.

(** The four fetch functions, before the decorator. *)
Definition get_page_screenshot_body (E : Env) (client : Client)
    (file_id : string) (page_index : Z) (project_id : string) : Py bytes :=
  let request :=
    _build_get_page_screenshot_request E client file_id page_index project_id in
  _response ⇐ remote (Call_send request) (λ h, env_send E h request) ;;
  if (200 <=? status_code _response) && (status_code _response <? 300)
  then ret (content _response)
  else raise (ApiError (status_code _response) (text _response)).

Definition get_page_figure_body (E : Env) (client : Client)
    (file_id : string) (page_index : Z) (figure_name project_id : string)
  : Py bytes :=
  let request :=
    _build_get_page_figure_request E client file_id page_index figure_name
      project_id in
  _response ⇐ remote (Call_send request) (λ h, env_send E h request) ;;
  if (200 <=? status_code _response) && (status_code _response <? 300)
  then ret (content _response)
  else raise (ApiError (status_code _response) (text _response)).

(** The asynchronous ones differ by an [await] before [send]. *)
Definition aget_page_screenshot_body (E : Env) (client : Client)
    (file_id : string) (page_index : Z) (project_id : string) : Py bytes :=
  let request :=
    _build_get_page_screenshot_request E client file_id page_index project_id in
  _response ⇐ remote (Call_send request) (λ h, env_send E h request) ;;
  if (200 <=? status_code _response) && (status_code _response <? 300)
  then ret (content _response)
  else raise (ApiError (status_code _response) (text _response)).

Definition aget_page_figure_body (E : Env) (client : Client)
    (file_id : string) (page_index : Z) (figure_name project_id : string)
  : Py bytes :=
  let request :=
    _build_get_page_figure_request E client file_id page_index figure_name
      project_id in
  _response ⇐ remote (Call_send request) (λ h, env_send E h request) ;;
  if (200 <=? status_code _response) && (status_code _response <? 300)
  then ret (content _response)
  else raise (ApiError (status_code _response) (text _response)).

(** The decorated functions, as the rest of the module calls them. *)
Definition get_page_screenshot (E : Env) (client : Client)
    (file_id : string) (page_index : Z) (project_id : string) : Py bytes :=
  retry_on_failure (get_page_screenshot_body E client file_id page_index project_id).

Definition get_page_figure (E : Env) (client : Client)
    (file_id : string) (page_index : Z) (figure_name project_id : string)
  : Py bytes :=
  retry_on_failure
    (get_page_figure_body E client file_id page_index figure_name project_id).

Definition aget_page_screenshot (E : Env) (client : Client)
    (file_id : string) (page_index : Z) (project_id : string) : Py bytes :=
  retry_on_failure
    (aget_page_screenshot_body E client file_id page_index project_id).

Definition aget_page_figure (E : Env) (client : Client)
    (file_id : string) (page_index : Z) (figure_name project_id : string)
  : Py bytes :=
  retry_on_failure
    (aget_page_figure_body E client file_id page_index figure_name project_id).

(** ** Base64 *)

Definition b64_alphabet : list ascii :=
  String.list_ascii_of_string
    "ABCDEFGHIJKLMNOPQRSTUVWXYZabcdefghijklmnopqrstuvwxyz0123456789+/".

Definition b64_digit (n : N) : ascii :=
  nth (N.to_nat n) b64_alphabet "="%char.

(** [base64.b64encode(s).decode("utf-8")]: three bytes give four digits; one
    or two bytes left over give two or three digits and padding. *)
Fixpoint b64encode (s : bytes) : string :=
  match s with
  | [] => ""
  | [a] =>
      let a := Byte.to_N a in
      String (b64_digit (N.shiftr a 2))
        (String (b64_digit (N.shiftl (N.land a 3) 4)) "==")
  | [a; b] =>
      let a := Byte.to_N a in
      let b := Byte.to_N b in
      String (b64_digit (N.shiftr a 2))
        (String (b64_digit (N.lor (N.shiftl (N.land a 3) 4) (N.shiftr b 4)))
           (String (b64_digit (N.shiftl (N.land b 15) 2)) "="))
  | a :: b :: c :: s' =>
      let a := Byte.to_N a in
      let b := Byte.to_N b in
      let c := Byte.to_N c in
      String (b64_digit (N.shiftr a 2))
        (String (b64_digit (N.lor (N.shiftl (N.land a 3) 4) (N.shiftr b 4)))
           (String (b64_digit (N.lor (N.shiftl (N.land b 15) 2) (N.shiftr c 6)))
              (String (b64_digit (N.land c 63)) (b64encode s'))))
  end.

(** ** Result adapter *)

(** A [for] loop that appends one result per element; an exception leaves
    the loop. *)
Fixpoint for_each {A B} (body : A → Py B) (l : list A) : Py (list B) :=
  match l with
  | [] => ret []
  | x :: l' =>
      y ⇐ body x ;;
      ys ⇐ for_each body l' ;;
      ret (y :: ys)
  end.

(** [{**(metadata or {}), "file_id": ..., "page_index": ...}] *)
Definition image_node_metadata (raw_image_node : PageScreenshotNodeWithScore)
  : gmap string PyVal :=
  <["page_index" := PyInt (ps_page_index (psn_node raw_image_node))]>
    (<["file_id" := PyStr (ps_file_id (psn_node raw_image_node))]>
       (default ∅ (ps_metadata (psn_node raw_image_node)))).

Definition figure_node_metadata (raw_figure_node : PageFigureNodeWithScore)
  : gmap string PyVal :=
  <["figure_name" := PyStr (pf_figure_name (pfn_node raw_figure_node))]>
    (<["page_index" := PyInt (pf_page_index (pfn_node raw_figure_node))]>
       (<["file_id" := PyStr (pf_file_id (pfn_node raw_figure_node))]>
          (default ∅ (pf_metadata (pfn_node raw_figure_node))))).

(** The body of the loops over screenshot records, after the fetch. *)
Definition image_node_with_score (image_bytes : bytes)
    (raw_image_node : PageScreenshotNodeWithScore) : NodeWithScore :=
  let image_base64 := b64encode image_bytes in
  mkNodeWithScore
    (mkImageNode image_base64 (image_node_metadata raw_image_node))
    (Some (psn_score raw_image_node)).

Definition figure_node_with_score (figure_bytes : bytes)
    (raw_figure_node : PageFigureNodeWithScore) : NodeWithScore :=
  let figure_base64 := b64encode figure_bytes in
  mkNodeWithScore
    (mkImageNode figure_base64 (figure_node_metadata raw_figure_node))
    (Some (pfn_score raw_figure_node)).

(** [not raw_nodes] for an [Optional[List[...]]]. *)
Definition not_list {A} (l : option (list A)) : bool :=
  match l with
  | None | Some [] => true
  | Some (_ :: _) => false
  end.

Definition page_screenshot_nodes_to_node_with_score (E : Env) (client : Client)
    (raw_image_nodes : option (list PageScreenshotNodeWithScore))
    (project_id : string) : Py (list NodeWithScore) :=
  if not_list raw_image_nodes then ret []
  else
    for_each
      (λ raw_image_node,
         image_bytes ⇐ get_page_screenshot E client
                         (ps_file_id (psn_node raw_image_node))
                         (ps_page_index (psn_node raw_image_node))
                         project_id ;;
         ret (image_node_with_score image_bytes raw_image_node))
      (default [] raw_image_nodes).

Definition image_nodes_to_node_with_score (E : Env) (client : Client)
    (raw_image_nodes : option (list PageScreenshotNodeWithScore))
    (project_id : string) : Py (list NodeWithScore) :=
  if not_list raw_image_nodes then ret []
  else page_screenshot_nodes_to_node_with_score E client raw_image_nodes project_id.

Definition page_figure_nodes_to_node_with_score (E : Env) (client : Client)
    (raw_figure_nodes : option (list PageFigureNodeWithScore))
    (project_id : string) : Py (list NodeWithScore) :=
  if not_list raw_figure_nodes then ret []
  else
    for_each
      (λ raw_figure_node,
         figure_bytes ⇐ get_page_figure E client
                          (pf_file_id (pfn_node raw_figure_node))
                          (pf_page_index (pfn_node raw_figure_node))
                          (pf_figure_name (pfn_node raw_figure_node))
                          project_id ;;
         ret (figure_node_with_score figure_bytes raw_figure_node))
      (default [] raw_figure_nodes).

(** *** The job runner *)

(** Modelled from the spec: [run_jobs] of [llama_index.core.async_utils] is
    not part of this file.  The spec has it accept a list of independent
    asynchronous tasks and return their results in the same order.  The order
    in which the tasks are carried out is left to the event loop: it is the
    argument [order], a list of positions in [jobs].  Each task runs to its
    end when its turn comes and its result is stored at its own position; the
    first exception stops the wait.  The results are read off by position.
    The event loop may also interleave the requests of different tasks, and
    keeps running the other tasks after one has raised: what is proved of
    the call log of a run is therefore stated up to the order of the calls,
    with any number of tries from none to all for each task. *)
Fixpoint run_in_order {A} (jobs : list (Py A)) (order : list nat)
    (slots : list (option A)) : Py (list (option A)) :=
  match order with
  | [] => ret slots
  | i :: order' =>
      match jobs !! i with
      | Some job =>
          a ⇐ job ;;
          run_in_order jobs order' (<[i := Some a]> slots)
      | None => run_in_order jobs order' slots
      end
  end.

Definition run_jobs {A} (order : list nat) (jobs : list (Py A)) : Py (list A) :=
  slots ⇐ run_in_order jobs order (replicate (length jobs) None) ;;
  ret (omap id slots).

(** [b] is what [job] returned from some world. *)
Definition returned_by {A} (job : Py A) (b : A) : Prop :=
  ∃ w1 w2, job w1 = (Return b, w2).

(** Every filled slot holds a value returned by the job of its position. *)
Definition slots_from_jobs {A} (jobs : list (Py A)) (slots : list (option A))
  : Prop :=
  ∀ i b, slots !! i = Some (Some b) →
         ∃ job, jobs !! i = Some job ∧ returned_by job b.

Definition filled {A} (slots : list (option A)) (i : nat) : Prop :=
  ∃ b, slots !! i = Some (Some b).

(** The asynchronous conversions.  [order] is the order in which the event
    loop carries out the tasks handed to [run_jobs]. *)
Definition apage_screenshot_nodes_to_node_with_score (E : Env) (client : Client)
    (order : list nat)
    (raw_image_nodes : option (list PageScreenshotNodeWithScore))
    (project_id : string) : Py (list NodeWithScore) :=
  if not_list raw_image_nodes then ret []
  else
    let tasks :=
      (λ raw_image_node,
         aget_page_screenshot E client
           (ps_file_id (psn_node raw_image_node))
           (ps_page_index (psn_node raw_image_node))
           project_id)
        <$> default [] raw_image_nodes in
    image_bytes_list ⇐ run_jobs order tasks ;;
    ret (zip_with image_node_with_score image_bytes_list
           (default [] raw_image_nodes)).

Definition aimage_nodes_to_node_with_score (E : Env) (client : Client)
    (order : list nat)
    (raw_image_nodes : option (list PageScreenshotNodeWithScore))
    (project_id : string) : Py (list NodeWithScore) :=
  if not_list raw_image_nodes then ret []
  else
    apage_screenshot_nodes_to_node_with_score E client order raw_image_nodes
      project_id.

Definition apage_figure_nodes_to_node_with_score (E : Env) (client : Client)
    (order : list nat)
    (raw_figure_nodes : option (list PageFigureNodeWithScore))
    (project_id : string) : Py (list NodeWithScore) :=
  if not_list raw_figure_nodes then ret []
  else
    let tasks :=
      (λ raw_figure_node,
         aget_page_figure E client
           (pf_file_id (pfn_node raw_figure_node))
           (pf_page_index (pfn_node raw_figure_node))
           (pf_figure_name (pfn_node raw_figure_node))
           project_id)
        <$> default [] raw_figure_nodes in
    figure_bytes_list ⇐ run_jobs order tasks ;;
    ret (zip_with figure_node_with_score figure_bytes_list
           (default [] raw_figure_nodes)).

(** ** A small service for the examples *)

Definition is_send (c : Call) : bool :=
  match c with
  | Call_send _ => true
  | _ => false
  end.

(** A service that holds the given projects, pipelines and retrievers, whose
    transport answers the [n]-th request sent with the [n]-th response of
    [script] (and fails to connect when the script is over), and whose uuids
    are numbered. *)
Definition scripted_env (projects : list Project) (pipelines : list Pipeline)
    (retrievers : list Retriever) (script : list Response) : Env :=
  {| env_get_retriever h rid pid :=
       match List.find (λ r, String.eqb (Retriever_id r) rid) retrievers with
       | Some r => Return r
       | None => Raise (ApiError 404 "retriever not found")
       end;
     env_list_retrievers h pid name :=
       Return (List.filter
                 (λ r, String.eqb (Retriever_project_id r) pid
                       && bool_decide (Retriever_name r = name))
                 retrievers);
     env_get_project h pid :=
       match List.find (λ p, String.eqb (Project_id p) pid) projects with
       | Some p => Return p
       | None => Raise (ApiError 404 "project not found")
       end;
     env_list_projects h name org :=
       Return (List.filter
                 (λ p, bool_decide (Some (Project_name p) = name)) projects);
     env_get_pipeline h pid :=
       match List.find (λ p, String.eqb (Pipeline_id p) pid) pipelines with
       | Some p => Return p
       | None => Raise (ApiError 404 "pipeline not found")
       end;
     env_search_pipelines h pid name type :=
       Return (List.filter
                 (λ p, String.eqb (Pipeline_project_id p) pid
                       && bool_decide (Some (Pipeline_name p) = name)
                       && String.eqb (Pipeline_type p) type)
                 pipelines);
     env_send h request :=
       match script !! length (List.filter is_send h) with
       | Some response => Return response
       | None => Raise (OtherError "ConnectError")
       end;
     env_uuid4 n := "uuid-" +:+ pretty n;
     env_urljoin base url := base +:+ url |}.

Definition example_client : Client :=
  mkClient "https://api.example" [("Authorization", "Bearer t")].

Definition w0 : World := mkWorld [] 0.

Definition project_a : Project := mkProject "proj-1" "alpha".
Definition project_b : Project := mkProject "proj-2" "beta".
Definition pipeline_a : Pipeline := mkPipeline "pipe-1" "docs" "proj-1" "MANAGED".
Definition retriever_a : Retriever := mkRetriever "ret-1" "proj-1" "main" [].
Definition retriever_unnamed : Retriever := mkRetriever "ret-2" "proj-1" "" [].

Definition ok_response (body : bytes) : Response := mkResponse 200 body "".
Definition error_response (status : Z) (body : string) : Response :=
  mkResponse status [] body.

Definition record_0 : PageScreenshotNodeWithScore :=
  mkPageScreenshotNodeWithScore (mkPageScreenshotMetadata 1 "file-0" None) 0.75.
Definition record_1 : PageScreenshotNodeWithScore :=
  mkPageScreenshotNodeWithScore
    (mkPageScreenshotMetadata 2 "file-1"
       (Some {["file_id" := PyStr "stale"; "lang" := PyStr "en"]}))
    0.5.
Definition figure_0 : PageFigureNodeWithScore :=
  mkPageFigureNodeWithScore
    (mkPageFigureMetadata "fig-a" "file-0" 3
       (Some {["figure_name" := PyStr "stale"]}))
    0.25.

Definition demo_env (script : list Response) : Env :=
  scripted_env [project_a; project_b] [pipeline_a] [retriever_a; retriever_unnamed]
    script.

(** The service does not hold a retriever under an id that [uuid4] draws. *)
Definition uuid4_apart_from_service (E : Env) : Prop :=
  ∀ n h id project_id retriever,
    env_get_retriever E h id project_id = Return retriever →
    env_uuid4 E n ≠ id.

(** ** Notions for the properties of the fetches and the conversions *)

(** The world once the calls [cs] have been made. *)
Definition with_calls (w : World) (cs : list Call) : World :=
  mkWorld (calls w ++ cs) (uuids_drawn w).

(** The fetches for [raws] succeed one after the other from [w], give the
    bytes [bs] and leave the world [w']. *)
Inductive fetched_in_turn {A} (fetch : A → Py bytes)
  : list A → World → list bytes → World → Prop :=
| fetched_none (w : World) : fetched_in_turn fetch [] w [] w
| fetched_next (raw : A) (raws : list A) (w w1 w' : World) (b : bytes)
    (bs : list bytes) :
    fetch raw w = (Return b, w1) →
    fetched_in_turn fetch raws w1 bs w' →
    fetched_in_turn fetch (raw :: raws) w (b :: bs) w'.

(** A service whose transport answers every request, whenever it is sent,
    with the status 200 and the bytes of the url as body; it holds no
    project, pipeline or retriever. *)
Definition echo_env : Env :=
  {| env_get_retriever h rid pid := Raise (ApiError 404 "retriever not found");
     env_list_retrievers h pid name := Return [];
     env_get_project h pid := Raise (ApiError 404 "project not found");
     env_list_projects h name org := Return [];
     env_get_pipeline h pid := Raise (ApiError 404 "pipeline not found");
     env_search_pipelines h pid name type := Return [];
     env_send h request :=
       Return (ok_response (String.list_byte_of_string (req_url request)));
     env_uuid4 n := "uuid-" +:+ pretty n;
     env_urljoin base url := base +:+ url |}.

(** The reading of base64 text, to state that the payload of a node gives
    the fetched bytes back: the position of a digit in the alphabet, and the
    decoding of groups of four digits, the last of which may be padded. *)
Fixpoint index_of (c : ascii) (l : list ascii) (i : N) : option N :=
  match l with
  | [] => None
  | x :: l' => if Ascii.eqb x c then Some i else index_of c l' (N.succ i)
  end.

Definition b64_index (c : ascii) : option N := index_of c b64_alphabet 0%N.

Fixpoint b64decode (s : string) : option bytes :=
  match s with
  | "" => Some []
  | String c0 (String c1 (String c2 (String c3 s'))) =>
      i0 ← b64_index c0;
      i1 ← b64_index c1;
      a ← Byte.of_N (N.lor (N.shiftl i0 2) (N.shiftr i1 4));
      if Ascii.eqb c2 "="
      then if Ascii.eqb c3 "=" && String.eqb s' "" then Some [a] else None
      else
        i2 ← b64_index c2;
        b ← Byte.of_N (N.lor (N.shiftl (N.land i1 15) 4) (N.shiftr i2 2));
        if Ascii.eqb c3 "="
        then if String.eqb s' "" then Some [a; b] else None
        else
          i3 ← b64_index c3;
          c ← Byte.of_N (N.lor (N.shiftl (N.land i2 3) 6) i3);
          rest ← b64decode s';
          Some (a :: b :: c :: rest)
  | _ => None
  end.

(** * Properties *)

(** ** Retry policy *)

Lemma in_5xx_spec (s : Z) :
  (500 <=? s) && (s <? 600) = true ↔ 500 ≤ s ≤ 599.
Proof.
  rewrite andb_true_iff, Z.leb_le, Z.ltb_lt. lia.
Qed.

(** C7: [is_retryable_http_error] answers true exactly for an [ApiError] or
    an [HTTPStatusError] whose status code is between 500 and 599, both
    included: true at 500 and 599, false at 499 and 600, false for every
    other exception. *)
Theorem is_retryable_http_error_5xx :
  (∀ e, is_retryable_http_error e = true ↔
        (∃ s body, e = ApiError s body ∧ 500 ≤ s ≤ 599)
        ∨ (∃ s, e = HTTPStatusError s ∧ 500 ≤ s ≤ 599))
  ∧ (∀ body, is_retryable_http_error (ApiError 500 body) = true
             ∧ is_retryable_http_error (ApiError 599 body) = true
             ∧ is_retryable_http_error (ApiError 499 body) = false
             ∧ is_retryable_http_error (ApiError 600 body) = false)
  ∧ (is_retryable_http_error (HTTPStatusError 500) = true
     ∧ is_retryable_http_error (HTTPStatusError 599) = true
     ∧ is_retryable_http_error (HTTPStatusError 499) = false
     ∧ is_retryable_http_error (HTTPStatusError 600) = false)
  ∧ (∀ e, (∀ s body, e ≠ ApiError s body) → (∀ s, e ≠ HTTPStatusError s) →
          is_retryable_http_error e = false).
Proof.
  split; [|split; [|split]].
  - intros e. split.
    + destruct e as [s body|s| | | |]; simpl; try discriminate.
      * intros H%in_5xx_spec. left. by exists s, body.
      * intros H%in_5xx_spec. right. by exists s.
    + intros [(s & body & -> & H)|(s & -> & H)]; simpl; by apply in_5xx_spec.
  - intros body. by repeat split.
  - by repeat split.
  - intros [s body|s| | | |] Hapi Hhttp; simpl; try reflexivity.
    + by destruct (Hapi s body).
    + by destruct (Hhttp s).
Qed.

Lemma attempt_S {A} (func : Py A) (k : nat) (w : World) :
  attempt func (S k) w = attempt func k (func w).2.
Proof. reflexivity. Qed.

(** The loop stops at some attempt [n]: its outcome is that of the call
    number [n], every call before it raised an exception that [p] accepts,
    and it gives back such an exception only when no attempt was left. *)
Lemma retrying_attempt {A} (p : exn → bool) (func : Py A) (left : nat) :
  ∀ w, ∃ n : nat,
    (n ≤ left)%nat
    ∧ retrying p left func w = attempt func n w
    ∧ (∀ k, (k < n)%nat → ∃ e, (attempt func k w).1 = Raise e ∧ p e = true)
    ∧ (∀ e, (attempt func n w).1 = Raise e → p e = true → n = left).
Proof.
  induction left as [|left IH]; intros w.
  - exists 0%nat. simpl. split_and!.
    + lia.
    + destruct (func w) as [[a|e] w']; [done|]. by destruct (p e).
    + intros k Hk. lia.
    + done.
  - simpl. destruct (func w) as [[a|e] w'] eqn:Hf.
    + exists 0%nat. simpl. rewrite Hf. split_and!.
      * lia.
      * done.
      * intros k Hk. lia.
      * discriminate.
    + destruct (p e) eqn:Hp.
      * destruct (IH w') as (n & Hn & Heq & Hbefore & Hlast).
        exists (S n). rewrite !attempt_S, Hf. simpl. split_and!.
        -- lia.
        -- done.
        -- intros [|k] Hk; simpl; rewrite Hf.
           ++ by exists e.
           ++ apply Hbefore. lia.
        -- intros e' He' Hp'. f_equal. by eapply Hlast.
      * exists 0%nat. simpl. rewrite Hf. split_and!.
        -- lia.
        -- done.
        -- intros k Hk. lia.
        -- simpl. intros e' [= <-] Hp'. congruence.
Qed.

(** C6: a call made through [retry_on_failure] is carried out at most 5
    times; an exception that [is_retryable_http_error] rejects is raised
    after the attempt that met it, with no further attempt; and when all 5
    attempts met a retryable exception, the exception of the fifth attempt
    is raised as it is. *)
Theorem retry_on_failure_at_most_5 {A} (func : Py A) (w : World) :
  (∃ n : nat,
      (n < 5)%nat
      ∧ retry_on_failure func w = attempt func n w
      ∧ (∀ k, (k < n)%nat →
              ∃ e, (attempt func k w).1 = Raise e
                   ∧ is_retryable_http_error e = true)
      ∧ (∀ e, (attempt func n w).1 = Raise e →
              is_retryable_http_error e = true → n = 4%nat))
  ∧ (∀ e w', func w = (Raise e, w') → is_retryable_http_error e = false →
             retry_on_failure func w = (Raise e, w'))
  ∧ ((∀ k, (k < 5)%nat →
           ∃ e, (attempt func k w).1 = Raise e
                ∧ is_retryable_http_error e = true) →
     ∃ e, retry_on_failure func w = attempt func 4 w
          ∧ (attempt func 4 w).1 = Raise e).
Proof.
  unfold retry_on_failure, stop_after_attempt.
  destruct (retrying_attempt is_retryable_http_error func (5 - 1) w)
    as (n & Hn & Heq & Hbefore & Hlast).
  split; [|split].
  - exists n. split_and!; [simpl in Hn; lia | done | done | done].
  - intros e w' Hf Hp. simpl. rewrite Hf, Hp. done.
  - intros Hall.
    destruct (Hall n ltac:(simpl in Hn; lia)) as (e & He & Hp).
    assert (n = 4%nat) as -> by (by eapply Hlast).
    exists e. split; done.
Qed.

(** ** Asset fetcher *)

(** What one attempt makes of a response. *)
Lemma fetch_attempt (E : Env) (request : Request) (w : World) (resp : Response) :
  env_send E (calls w) request = Return resp →
  (_response ⇐ remote (Call_send request) (λ h, env_send E h request) ;;
   if (200 <=? status_code _response) && (status_code _response <? 300)
   then ret (content _response)
   else raise (ApiError (status_code _response) (text _response))) w
  = (if (200 <=? status_code resp) && (status_code resp <? 300)
     then Return (content resp)
     else Raise (ApiError (status_code resp) (text resp)),
     after_call w (Call_send request)).
Proof.
  intros Hsend. unfold bind, remote. rewrite Hsend.
  by destruct ((200 <=? status_code resp) && (status_code resp <? 300)).
Qed.

Lemma in_2xx_spec (s : Z) :
  (200 <=? s) && (s <? 300) = true ↔ 200 ≤ s ≤ 299.
Proof.
  rewrite andb_true_iff, Z.leb_le, Z.ltb_lt. lia.
Qed.

Lemma not_in_2xx_spec (s : Z) :
  (200 <=? s) && (s <? 300) = false ↔ ¬ 200 ≤ s ≤ 299.
Proof.
  rewrite <- in_2xx_spec. by destruct ((200 <=? s) && (s <? 300)).
Qed.

(** A call that returns, or that raises an exception the policy rejects, goes
    through the decorator unchanged. *)
Lemma retry_on_failure_first {A} (func : Py A) (w : World) :
  match (func w).1 with
  | Return _ => True
  | Raise e => is_retryable_http_error e = false
  end →
  retry_on_failure func w = func w.
Proof.
  unfold retry_on_failure. simpl.
  destruct (func w) as [[a|e] w']; simpl; [done|]. by intros ->.
Qed.

(** C5: the four fetch functions decide on the status code of the response
    alone.  A status between 200 and 299 gives the bytes of the body, also
    through the decorator.  Any other status makes the attempt raise an
    [ApiError] with that status and the text of the body; when the status is
    not a 5xx either, this error leaves the decorated function after that one
    request. *)
Theorem fetch_status_decides (E : Env) (client : Client) (file_id : string)
    (page_index : Z) (figure_name project_id : string) (w : World)
    (resp : Response) :
  let shot :=
    _build_get_page_screenshot_request E client file_id page_index project_id in
  let fig :=
    _build_get_page_figure_request E client file_id page_index figure_name
      project_id in
  let error := ApiError (status_code resp) (text resp) in
  (env_send E (calls w) shot = Return resp →
   (200 ≤ status_code resp ≤ 299 →
    let out := (Return (content resp), after_call w (Call_send shot)) in
    get_page_screenshot_body E client file_id page_index project_id w = out
    ∧ aget_page_screenshot_body E client file_id page_index project_id w = out
    ∧ get_page_screenshot E client file_id page_index project_id w = out
    ∧ aget_page_screenshot E client file_id page_index project_id w = out)
   ∧ (¬ 200 ≤ status_code resp ≤ 299 →
      let out := (Raise error, after_call w (Call_send shot)) in
      get_page_screenshot_body E client file_id page_index project_id w = out
      ∧ aget_page_screenshot_body E client file_id page_index project_id w = out
      ∧ (¬ 500 ≤ status_code resp ≤ 599 →
         get_page_screenshot E client file_id page_index project_id w = out
         ∧ aget_page_screenshot E client file_id page_index project_id w = out)))
  ∧ (env_send E (calls w) fig = Return resp →
     (200 ≤ status_code resp ≤ 299 →
      let out := (Return (content resp), after_call w (Call_send fig)) in
      get_page_figure_body E client file_id page_index figure_name project_id w
      = out
      ∧ aget_page_figure_body E client file_id page_index figure_name project_id w
        = out
      ∧ get_page_figure E client file_id page_index figure_name project_id w = out
      ∧ aget_page_figure E client file_id page_index figure_name project_id w
        = out)
     ∧ (¬ 200 ≤ status_code resp ≤ 299 →
        let out := (Raise error, after_call w (Call_send fig)) in
        get_page_figure_body E client file_id page_index figure_name project_id w
        = out
        ∧ aget_page_figure_body E client file_id page_index figure_name
            project_id w = out
        ∧ (¬ 500 ≤ status_code resp ≤ 599 →
           get_page_figure E client file_id page_index figure_name project_id w
           = out
           ∧ aget_page_figure E client file_id page_index figure_name project_id w
             = out))).
Proof.
  intros shot fig error.
  assert (∀ request (body : Py bytes),
    body = (_response ⇐ remote (Call_send request) (λ h, env_send E h request) ;;
            if (200 <=? status_code _response) && (status_code _response <? 300)
            then ret (content _response)
            else raise (ApiError (status_code _response) (text _response))) →
    env_send E (calls w) request = Return resp →
    (200 ≤ status_code resp ≤ 299 →
     body w = (Return (content resp), after_call w (Call_send request))
     ∧ retry_on_failure body w
       = (Return (content resp), after_call w (Call_send request)))
    ∧ (¬ 200 ≤ status_code resp ≤ 299 →
       body w = (Raise error, after_call w (Call_send request))
       ∧ (¬ 500 ≤ status_code resp ≤ 599 →
          retry_on_failure body w
          = (Raise error, after_call w (Call_send request)))))
    as Hbody.
  { intros request body -> Hsend. split.
    - intros H2xx%in_2xx_spec.
      assert (∀ body' : Py bytes, body' w
        = (Return (content resp), after_call w (Call_send request)) →
        retry_on_failure body' w = body' w) as Hretry.
      { intros body' Hb. apply retry_on_failure_first. by rewrite Hb. }
      rewrite Hretry; rewrite (fetch_attempt _ _ _ _ Hsend), H2xx; done.
    - intros Hother%not_in_2xx_spec. split.
      + by rewrite (fetch_attempt _ _ _ _ Hsend), Hother.
      + intros H5xx. rewrite retry_on_failure_first.
        * by rewrite (fetch_attempt _ _ _ _ Hsend), Hother.
        * rewrite (fetch_attempt _ _ _ _ Hsend), Hother. simpl.
          apply not_true_is_false. by rewrite in_5xx_spec. }
  split; intros Hsend.
  - destruct (Hbody shot
                (get_page_screenshot_body E client file_id page_index project_id)
                eq_refl Hsend) as [Hok Hko].
    split.
    + intros H. destruct (Hok H) as [Hb Hr]. by split_and!.
    + intros H. destruct (Hko H) as [Hb Hr]. split_and!; [done..|].
      intros H5. by split; apply Hr.
  - destruct (Hbody fig
                (get_page_figure_body E client file_id page_index figure_name
                   project_id)
                eq_refl Hsend) as [Hok Hko].
    split.
    + intros H. destruct (Hok H) as [Hb Hr]. by split_and!.
    + intros H. destruct (Hko H) as [Hb Hr]. split_and!; [done..|].
      intros H5. by split; apply Hr.
Qed.

(** ** Entity resolver *)

Lemma string_app_empty_r (s : string) : s +:+ "" = s.
Proof.
  induction s as [|a s IH]; [reflexivity|].
  change (String a (s +:+ "") = String a s). by rewrite IH.
Qed.

(** C3: resolution by name, when the listing answers.  No match: a
    [ValueError] whose message holds the requested name.  Two matches or
    more: a [ValueError] that says several were found, again with the name.
    One match: that entity. *)
Theorem resolve_by_name_counts (E : Env) (client : Client)
    (name organization_id : option string) (project : Project) (w : World) :
  (∀ projects,
      env_list_projects E (calls w) name organization_id = Return projects →
      let run := resolve_project E client name None organization_id w in
      let w' := after_call w (Call_list_projects name organization_id) in
      (projects = [] →
       run = (Raise (ValueError ("No project found with name " +:+ format_opt name)),
              w')
       ∧ occurs_in (format_opt name)
           ("No project found with name " +:+ format_opt name))
      ∧ ((2 ≤ length projects)%nat →
         run = (Raise (ValueError
                         ("Multiple projects found with name " +:+ format_opt name
                          +:+ ". Please specify organization_id.")), w')
         ∧ occurs_in (format_opt name)
             ("Multiple projects found with name " +:+ format_opt name
              +:+ ". Please specify organization_id."))
      ∧ (∀ found, projects = [found] → run = (Return found, w')))
  ∧ (∀ pipelines,
        env_search_pipelines E (calls w) (Project_id project) name
          PipelineType_MANAGED_value = Return pipelines →
        let run := resolve_pipeline E client None (Some project) name w in
        let w' :=
          after_call w
            (Call_search_pipelines (Project_id project) name
               PipelineType_MANAGED_value) in
        (pipelines = [] →
         run = (Raise (ValueError
                         ("Unknown index name " +:+ format_opt name
                          +:+ ". Please confirm an index with this name exists.")),
                w')
         ∧ occurs_in (format_opt name)
             ("Unknown index name " +:+ format_opt name
              +:+ ". Please confirm an index with this name exists."))
        ∧ ((2 ≤ length pipelines)%nat →
           run = (Raise (ValueError
                           ("Multiple pipelines found with name "
                            +:+ format_opt name
                            +:+ " in project " +:+ Project_name project)), w')
           ∧ occurs_in (format_opt name)
               ("Multiple pipelines found with name " +:+ format_opt name
                +:+ " in project " +:+ Project_name project))
        ∧ (∀ found, pipelines = [found] → run = (Return found, w'))).
Proof.
  split.
  - intros projects Hlist run w'. subst run w'.
    unfold resolve_project, bind, remote. rewrite Hlist. split_and!.
    + intros ->. split; [done|].
      exists "No project found with name ", "". by rewrite string_app_empty_r.
    + destruct projects as [|p1 [|p2 projects]]; simpl; [lia..|].
      intros _. split; [done|]. by eexists _, _.
    + by intros found ->.
  - intros pipelines Hsearch run w'. subst run w'.
    unfold resolve_pipeline, bind, remote. rewrite Hsearch. split_and!.
    + intros ->. split; [done|]. by eexists _, _.
    + destruct pipelines as [|p1 [|p2 pipelines]]; simpl; [lia..|].
      intros _. split; [done|]. by eexists _, _.
    + by intros found ->.
Qed.

Lemma if_truthy_Some (s : string) : s ≠ "" → if_truthy (Some s) = Some s.
Proof.
  intros Hs. unfold if_truthy, truthy.
  destruct (String.eqb_spec s ""); [done|reflexivity].
Qed.

Lemma if_truthy_None (o : option string) :
  if_truthy o = None ↔ o = None ∨ o = Some "".
Proof.
  unfold if_truthy, truthy. destruct o as [s|]; [|by split; [left|]].
  destruct (String.eqb_spec s "") as [->|Hs]; simpl.
  - by split; [right|].
  - split; [done|]. intros [[=]|[= ->]]. done.
Qed.

Lemma new_calls_after_call (w : World) (c : Call) :
  new_calls w (after_call w c) = [c].
Proof. unfold new_calls, after_call. simpl. by rewrite drop_app_length. Qed.

Lemma new_calls_same (w : World) (n : nat) :
  new_calls w (mkWorld (calls w) n) = [].
Proof. unfold new_calls. simpl. by rewrite drop_all. Qed.

(** C8, as the code has it: with an id, [resolve_project] and
    [resolve_pipeline] make one call, the fetch by id, and give its answer;
    so does [resolve_retriever] with [persisted] true when the id is not the
    empty string.  A listing or search call is made only when the project or
    pipeline id is [None], and for a retriever only when its id is [None] or
    empty. *)
Theorem resolve_by_id_only_fetches (E : Env) (client : Client)
    (project : Project) (name organization_id : option string) (w : World) :
  (∀ id,
      resolve_project E client name (Some id) organization_id w
      = (env_get_project E (calls w) id, after_call w (Call_get_project id)))
  ∧ (∀ id scope,
        resolve_pipeline E client (Some id) scope name w
        = (env_get_pipeline E (calls w) id, after_call w (Call_get_pipeline id)))
  ∧ (∀ id, id ≠ "" →
           let run := resolve_retriever E client project name (Some id) true w in
           run.2 = after_call w (Call_get_retriever id (Project_id project))
           ∧ run.1 = match env_get_retriever E (calls w) id (Project_id project) with
                     | Return retriever => Return (Some retriever)
                     | Raise e => Raise e
                     end)
  ∧ (∀ id,
        existsb is_listing
          (new_calls w (resolve_project E client name id organization_id w).2)
        = true → id = None)
  ∧ (∀ id scope,
        existsb is_listing
          (new_calls w (resolve_pipeline E client id scope name w).2)
        = true → id = None)
  ∧ (∀ id persisted,
        existsb is_listing
          (new_calls w (resolve_retriever E client project name id persisted w).2)
        = true → id = None ∨ id = Some "").
Proof.
  split_and!.
  - done.
  - done.
  - intros id Hid run. subst run.
    unfold resolve_retriever. simpl. rewrite (if_truthy_Some _ Hid).
    unfold bind, remote.
    by destruct (env_get_retriever E (calls w) id (Project_id project)).
  - intros [id|]; [|done]. simpl. by rewrite new_calls_after_call.
  - intros [id|] scope; [|done]. simpl. by rewrite new_calls_after_call.
  - intros id persisted. unfold resolve_retriever.
    destruct persisted; simpl.
    + destruct (if_truthy id) as [rid|] eqn:Hid.
      * unfold bind, remote.
        destruct (env_get_retriever E (calls w) rid (Project_id project));
          simpl; by rewrite new_calls_after_call.
      * intros _. by apply if_truthy_None.
    + unfold bind, uuid4_str, Retriever_init, ret, raise.
      destruct name; simpl; by rewrite new_calls_same.
Qed.

(** C1: with a pipeline id, the pipeline is fetched first, the project is
    then resolved with the pipeline's [project_id] whatever project id or name
    the caller gave, and no search by name follows; without one, the project
    is resolved first and the pipeline is searched by name in it.  The pair
    returned is (project, pipeline). *)
Theorem resolve_project_and_pipeline_order (E : Env) (client : Client)
    (pipeline_name project_name project_id organization_id : option string)
    (w : World) :
  (∀ pipeline_id,
      resolve_project_and_pipeline E client pipeline_name (Some pipeline_id)
        project_name project_id organization_id w
      = (pipeline ⇐ resolve_pipeline E client (Some pipeline_id) None None ;;
         project ⇐ resolve_project E client project_name
                     (Some (Pipeline_project_id pipeline)) organization_id ;;
         ret (project, pipeline)) w)
  ∧ (∀ pipeline_id pipeline project,
        env_get_pipeline E (calls w) pipeline_id = Return pipeline →
        env_get_project E (calls w ++ [Call_get_pipeline pipeline_id])
          (Pipeline_project_id pipeline) = Return project →
        resolve_project_and_pipeline E client pipeline_name (Some pipeline_id)
          project_name project_id organization_id w
        = (Return (project, pipeline),
           after_call (after_call w (Call_get_pipeline pipeline_id))
             (Call_get_project (Pipeline_project_id pipeline))))
  ∧ (resolve_project_and_pipeline E client pipeline_name None
       project_name project_id organization_id w
     = (project ⇐ resolve_project E client project_name project_id
                    organization_id ;;
        pipeline ⇐ resolve_pipeline E client None (Some project) pipeline_name ;;
        ret (project, pipeline)) w)
  ∧ (∀ project pipeline w1 w2,
        resolve_project E client project_name project_id organization_id w
        = (Return project, w1) →
        resolve_pipeline E client None (Some project) pipeline_name w1
        = (Return pipeline, w2) →
        resolve_project_and_pipeline E client pipeline_name None
          project_name project_id organization_id w
        = (Return (project, pipeline), w2)).
Proof.
  assert (∀ pipeline_id,
      resolve_project_and_pipeline E client pipeline_name (Some pipeline_id)
        project_name project_id organization_id w
      = (pipeline ⇐ resolve_pipeline E client (Some pipeline_id) None None ;;
         project ⇐ resolve_project E client project_name
                     (Some (Pipeline_project_id pipeline)) organization_id ;;
         ret (project, pipeline)) w) as Hid.
  { intros pipeline_id. unfold resolve_project_and_pipeline, bind, ret.
    cbv beta iota zeta.
    destruct (resolve_pipeline E client (Some pipeline_id) None None w)
      as [[pipeline|e] w1]; cbv beta iota zeta; [|done].
    by destruct (resolve_project E client project_name
                   (Some (Pipeline_project_id pipeline)) organization_id w1)
      as [[project|e] w2]. }
  assert (resolve_project_and_pipeline E client pipeline_name None
       project_name project_id organization_id w
     = (project ⇐ resolve_project E client project_name project_id
                    organization_id ;;
        pipeline ⇐ resolve_pipeline E client None (Some project) pipeline_name ;;
        ret (project, pipeline)) w) as Hname.
  { unfold resolve_project_and_pipeline, bind, ret. cbv beta iota zeta.
    destruct (resolve_project E client project_name project_id organization_id w)
      as [[project|e] w1]; [|done].
    by destruct (resolve_pipeline E client None (Some project) pipeline_name w1)
      as [[pipeline|e] w2]. }
  split_and!.
  - exact Hid.
  - intros pipeline_id pipeline project Hpipeline Hproject.
    rewrite Hid. unfold bind, resolve_pipeline, resolve_project, remote. simpl.
    by rewrite Hpipeline, Hproject.
  - exact Hname.
  - intros project pipeline w1 w2 Hproject Hpipeline.
    rewrite Hname. unfold bind. by rewrite Hproject, Hpipeline.
Qed.

(** [List.find] gives the first element that passes the test. *)
Lemma find_first {A} (f : A → bool) (before after : list A) (x : A) :
  (∀ y, y ∈ before → f y = false) → f x = true →
  List.find f (before ++ x :: after)%list = Some x.
Proof.
  intros Hbefore Hx. induction before as [|y before IH]; simpl.
  - by rewrite Hx.
  - rewrite (Hbefore y) by left. apply IH. intros z Hz. apply Hbefore. by right.
Qed.

Lemma find_none {A} (f : A → bool) (l : list A) :
  (∀ y, y ∈ l → f y = false) → List.find f l = None.
Proof.
  intros Hl. induction l as [|y l IH]; simpl; [done|].
  rewrite (Hl y) by left. apply IH. intros z Hz. apply Hl. by right.
Qed.

(** C4, as the code has it.  Not persisted, with a name: a local retriever
    with the next uuid, the project's id, the requested name and no pipeline,
    and no remote call; two such calls give different ids when [uuid4] never
    repeats a value.  Persisted: with a non-empty id, the fetch by id;
    otherwise, with a non-empty name, the first listed retriever that bears
    exactly this name, or [None] when none does; otherwise [None] with no
    call.  An empty string counts as not given, for the id and for the name. *)
Theorem resolve_retriever_cases (E : Env) (client : Client) (project : Project)
    (name id : option string) (w : World) :
  let not_given (o : option string) := o = None ∨ o = Some "" in
  (∀ n, name = Some n →
        resolve_retriever E client project name id false w
        = (Return (Some (mkRetriever (env_uuid4 E (uuids_drawn w))
                           (Project_id project) n [])),
           mkWorld (calls w) (S (uuids_drawn w))))
  ∧ (Inj (=) (=) (env_uuid4 E) →
     ∀ project' name' id' r1 r2 w1 w2 w2',
       resolve_retriever E client project name id false w = (Return (Some r1), w1) →
       (uuids_drawn w1 ≤ uuids_drawn w2)%nat →
       resolve_retriever E client project' name' id' false w2
       = (Return (Some r2), w2') →
       Retriever_id r1 ≠ Retriever_id r2)
  ∧ (∀ rid, id = Some rid → rid ≠ "" →
            resolve_retriever E client project name id true w
            = (match env_get_retriever E (calls w) rid (Project_id project) with
               | Return retriever => Return (Some retriever)
               | Raise e => Raise e
               end,
               after_call w (Call_get_retriever rid (Project_id project))))
  ∧ (∀ n retrievers,
        not_given id → name = Some n → n ≠ "" →
        env_list_retrievers E (calls w) (Project_id project) n = Return retrievers →
        let run := resolve_retriever E client project name id true w in
        run.2 = after_call w (Call_list_retrievers (Project_id project) n)
        ∧ (∀ before found after,
              retrievers = (before ++ found :: after)%list →
              Retriever_name found = n →
              (∀ r, r ∈ before → Retriever_name r ≠ n) →
              run.1 = Return (Some found))
        ∧ ((∀ r, r ∈ retrievers → Retriever_name r ≠ n) →
           run.1 = Return None))
  ∧ (not_given id → not_given name →
     resolve_retriever E client project name id true w = (Return None, w)).
Proof.
  intros not_given. split_and!.
  - by intros n ->.
  - intros Hinj project' name' id' r1 r2 w1 w2 w2'.
    unfold resolve_retriever, bind, uuid4_str, Retriever_init, ret, raise. simpl.
    destruct name as [n|], name' as [n'|]; try discriminate.
    intros [= <- <-] Hle [= <- _]. simpl in *.
    intros Heq%Hinj. lia.
  - intros rid -> Hrid. unfold resolve_retriever. simpl.
    rewrite (if_truthy_Some _ Hrid). unfold bind, remote.
    by destruct (env_get_retriever E (calls w) rid (Project_id project)).
  - intros n retrievers Hid%if_truthy_None -> Hn Hlist run. subst run.
    unfold resolve_retriever. simpl.
    rewrite Hid, (if_truthy_Some _ Hn). unfold bind, remote. rewrite Hlist.
    simpl. split_and!.
    + done.
    + intros before found after -> Hfound Hbefore. f_equal.
      apply find_first.
      * intros r Hr. apply bool_decide_eq_false. by apply Hbefore.
      * by apply bool_decide_eq_true.
    + intros Hnone. f_equal. apply find_none.
      intros r Hr. apply bool_decide_eq_false. by apply Hnone.
  - intros Hid%if_truthy_None Hname%if_truthy_None.
    unfold resolve_retriever. simpl. by rewrite Hid, Hname.
Qed.

(** C10: with [persisted] false the retriever id that the caller gave plays
    no part: whatever the name, the outcome is the one for no id at all and
    the log of remote calls is as before.  With a name, the outcome is a local
    retriever that bears the next uuid.  This id differs from the one given
    when the given one names a retriever that the service holds, the service
    holding none under an id that [uuid4] draws; it also differs from every
    uuid drawn before, [uuid4] never repeating a value. *)
Theorem resolve_retriever_not_persisted_ignores_id (E : Env) (client : Client)
    (project : Project) (name : option string) (rid : string) (w : World) :
  let run := resolve_retriever E client project name (Some rid) false w in
  run = resolve_retriever E client project name None false w
  ∧ calls run.2 = calls w
  ∧ new_calls w run.2 = []
  ∧ ∀ n, name = Some n →
         ∃ retriever,
           run.1 = Return (Some retriever)
           ∧ Retriever_id retriever = env_uuid4 E (uuids_drawn w)
           ∧ (uuid4_apart_from_service E →
              (∃ existing,
                  env_get_retriever E (calls w) rid (Project_id project)
                  = Return existing) →
              Retriever_id retriever ≠ rid)
           ∧ (Inj (=) (=) (env_uuid4 E) →
              ∀ m, (m < uuids_drawn w)%nat → rid = env_uuid4 E m →
                   Retriever_id retriever ≠ rid)
           ∧ Retriever_project_id retriever = Project_id project
           ∧ Retriever_name retriever = n
           ∧ Retriever_pipelines retriever = [].
Proof.
  intros run. subst run. split_and!.
  - reflexivity.
  - unfold resolve_retriever, bind, uuid4_str, Retriever_init, ret, raise.
    by destruct name.
  - unfold resolve_retriever, bind, uuid4_str, Retriever_init, ret, raise.
    destruct name; simpl; apply new_calls_same.
  - intros n ->. eexists. split; [reflexivity|]. simpl.
    split_and!; [done| | |done..].
    + intros Hapart [existing Hexisting]. by eapply Hapart.
    + intros Hinj m Hm -> Heq%Hinj. lia.
Qed.

(** ** Result adapter *)

(** *** The job runner gives the results in the order of the jobs *)

Lemma run_in_order_slots {A} (jobs : list (Py A)) (order : list nat) :
  ∀ slots w slots' w',
    run_in_order jobs order slots w = (Return slots', w') →
    length slots = length jobs →
    slots_from_jobs jobs slots →
    length slots' = length jobs
    ∧ slots_from_jobs jobs slots'
    ∧ ∀ i, (i < length jobs)%nat → i ∈ order ∨ filled slots i → filled slots' i.
Proof.
  induction order as [|i order IH]; intros slots w slots' w' Hrun Hlen Hfrom.
  - simpl in Hrun. unfold ret in Hrun. injection Hrun as <- <-.
    split_and!; [done..|].
    intros i _ [Hi|Hi]; [|done]. by apply elem_of_nil in Hi.
  - simpl in Hrun. destruct (jobs !! i) as [job|] eqn:Hjob.
    + unfold bind in Hrun. destruct (job w) as [[a|e] w1] eqn:Hw; [|done].
      apply IH in Hrun as (Hlen' & Hfrom' & Hfilled).
      * split_and!; [done..|].
        intros j Hj Hin. apply Hfilled; [done|].
        destruct (decide (j = i)) as [->|Hne].
        -- right. exists a. apply list_lookup_insert_eq. lia.
        -- destruct Hin as [Hin|[b Hb]].
           ++ apply elem_of_cons in Hin as [?|?]; [done|by left].
           ++ right. exists b. by rewrite list_lookup_insert_ne.
      * by rewrite length_insert.
      * intros j b. destruct (decide (j = i)) as [->|Hne].
        -- rewrite list_lookup_insert_eq by (apply lookup_lt_Some in Hjob; lia).
           intros [= <-]. exists job. split; [done|]. by exists w, w1.
        -- rewrite list_lookup_insert_ne by done. apply Hfrom.
    + apply IH in Hrun as (Hlen' & Hfrom' & Hfilled); [|done..].
      split_and!; [done..|].
      intros j Hj Hin. apply Hfilled; [done|].
      destruct Hin as [Hin|Hin]; [|by right].
      apply elem_of_cons in Hin as [->|?]; [|by left].
      apply lookup_ge_None in Hjob. lia.
Qed.

(** Reading off slots that are all filled keeps their number and order. *)
Lemma omap_id_filled {A} (slots : list (option A)) :
  (∀ i, (i < length slots)%nat → filled slots i) →
  Forall2 (λ slot b, slot = Some b) slots (omap id slots).
Proof.
  induction slots as [|slot slots IH]; intros Hall; [constructor|].
  destruct (Hall 0%nat ltac:(simpl; lia)) as [b [= ->]]. simpl.
  constructor; [done|]. apply IH. intros i Hi.
  destruct (Hall (S i) ltac:(simpl; lia)) as [b' Hb']. by exists b'.
Qed.

Lemma run_jobs_in_order {A} (jobs : list (Py A)) (order : list nat)
    (w w' : World) (bs : list A) :
  order ≡ₚ seq 0 (length jobs) →
  run_jobs order jobs w = (Return bs, w') →
  Forall2 returned_by jobs bs.
Proof.
  intros Hperm. unfold run_jobs, bind.
  destruct (run_in_order jobs order (replicate (length jobs) None) w)
    as [[slots|e] w1] eqn:Hrun; [|done].
  intros [= <- <-].
  apply run_in_order_slots in Hrun as (Hlen & Hfrom & Hfilled).
  - assert (Forall2 (λ slot b, slot = Some b) slots (omap id slots)) as Hread.
    { apply omap_id_filled. intros i Hi. apply Hfilled; [lia|]. left.
      rewrite Hperm. apply elem_of_seq. lia. }
    apply Forall2_same_length_lookup. split.
    + apply Forall2_length in Hread. lia.
    + intros i job b Hjob Hb.
      destruct (Forall2_lookup_r _ _ _ _ _ Hread Hb) as (slot & Hslot & ->).
      destruct (Hfrom i b Hslot) as (job' & Hjob' & Hret). congruence.
  - by rewrite length_replicate.
  - intros i b [[=] _]%lookup_replicate.
Qed.

(** When every job returns from every world, so does the runner. *)
Lemma run_in_order_total {A} (jobs : list (Py A)) (order : list nat) :
  (∀ job, job ∈ jobs → ∀ w, ∃ b w', job w = (Return b, w')) →
  ∀ slots w, ∃ slots' w', run_in_order jobs order slots w = (Return slots', w').
Proof.
  intros Hjobs. induction order as [|i order IH]; intros slots w; simpl.
  - by eexists _, _.
  - destruct (jobs !! i) as [job|] eqn:Hjob; [|apply IH].
    destruct (Hjobs job (list_elem_of_lookup_2 _ _ _ Hjob) w) as (b & w1 & Hb).
    unfold bind. rewrite Hb. apply IH.
Qed.

Lemma run_jobs_total {A} (jobs : list (Py A)) (order : list nat) (w : World) :
  (∀ job, job ∈ jobs → ∀ w, ∃ b w', job w = (Return b, w')) →
  ∃ bs w', run_jobs order jobs w = (Return bs, w').
Proof.
  intros Hjobs. unfold run_jobs, bind.
  destruct (run_in_order_total jobs order Hjobs
              (replicate (length jobs) None) w) as (slots & w1 & ->).
  by eexists _, _.
Qed.

(** *** Pairing the results with the records *)

Lemma zip_with_by_position {A B C} (f : B → A → C) (bs : list B) (raws : list A) :
  length bs = length raws →
  length (zip_with f bs raws) = length raws
  ∧ ∀ i raw, raws !! i = Some raw →
             ∃ b, bs !! i = Some b ∧ zip_with f bs raws !! i = Some (f b raw).
Proof.
  intros Hlen. split.
  - rewrite length_zip_with. lia.
  - intros i raw Hraw.
    destruct (lookup_lt_is_Some_2 bs i) as [b Hb].
    { apply lookup_lt_Some in Hraw. lia. }
    exists b. split; [done|]. rewrite lookup_zip_with, Hb. simpl. by rewrite Hraw.
Qed.

(** The derived keys win over the keys of the record's own metadata. *)
Lemma image_node_metadata_lookup (raw : PageScreenshotNodeWithScore) (k : string) :
  image_node_metadata raw !! k
  = if decide ("page_index" = k)
    then Some (PyInt (ps_page_index (psn_node raw)))
    else if decide ("file_id" = k)
         then Some (PyStr (ps_file_id (psn_node raw)))
         else default ∅ (ps_metadata (psn_node raw)) !! k.
Proof. unfold image_node_metadata. by rewrite !lookup_insert. Qed.

Lemma figure_node_metadata_lookup (raw : PageFigureNodeWithScore) (k : string) :
  figure_node_metadata raw !! k
  = if decide ("figure_name" = k)
    then Some (PyStr (pf_figure_name (pfn_node raw)))
    else if decide ("page_index" = k)
         then Some (PyInt (pf_page_index (pfn_node raw)))
         else if decide ("file_id" = k)
              then Some (PyStr (pf_file_id (pfn_node raw)))
              else default ∅ (pf_metadata (pfn_node raw)) !! k.
Proof. unfold figure_node_metadata. by rewrite !lookup_insert. Qed.

(** A transport that answers every request with a 2xx status makes every
    decorated fetch return. *)
Lemma fetch_returns_on_2xx (E : Env) (request : Request) :
  (∀ h request, ∃ resp,
      env_send E h request = Return resp ∧ 200 ≤ status_code resp ≤ 299) →
  ∀ w, ∃ b w',
    retry_on_failure
      (_response ⇐ remote (Call_send request) (λ h, env_send E h request) ;;
       if (200 <=? status_code _response) && (status_code _response <? 300)
       then ret (content _response)
       else raise (ApiError (status_code _response) (text _response))) w
    = (Return b, w').
Proof.
  intros Hsend w. destruct (Hsend (calls w) request) as (resp & Hresp & H2xx).
  exists (content resp), (after_call w (Call_send request)).
  apply in_2xx_spec in H2xx.
  rewrite retry_on_failure_first; rewrite (fetch_attempt _ _ _ _ Hresp), H2xx; done.
Qed.

(** What the asynchronous conversions do once the job runner has answered:
    pair result [i] with record [i]. *)
Lemma async_conversion {A} (fetch : A → Py bytes) (make : bytes → A → NodeWithScore)
    (order : list nat) (raws : list A) (w : World) :
  order ≡ₚ seq 0 (length raws) →
  let run := (bs ⇐ run_jobs order (fetch <$> raws) ;;
              ret (zip_with make bs raws)) w in
  (∀ bs w',
      run_jobs order (fetch <$> raws) w = (Return bs, w') →
      run = (Return (zip_with make bs raws), w')
      ∧ length (zip_with make bs raws) = length raws
      ∧ Forall2 (λ raw b, returned_by (fetch raw) b) raws bs
      ∧ ∀ i raw, raws !! i = Some raw →
                 ∃ b, bs !! i = Some b
                      ∧ zip_with make bs raws !! i = Some (make b raw))
  ∧ ((∀ raw w, ∃ b w', fetch raw w = (Return b, w')) →
     ∃ nodes w', run = (Return nodes, w') ∧ length nodes = length raws).
Proof.
  intros Hperm run. subst run.
  assert (∀ bs w',
      run_jobs order (fetch <$> raws) w = (Return bs, w') →
      Forall2 (λ raw b, returned_by (fetch raw) b) raws bs) as Hfetched.
  { intros bs w' Hrun. apply run_jobs_in_order in Hrun.
    - apply (Forall2_fmap_l fetch) in Hrun. exact Hrun.
    - by rewrite length_fmap. }
  split.
  - intros bs w' Hrun. pose proof (Hfetched _ _ Hrun) as Hall.
    pose proof (Forall2_length _ _ _ Hall) as Hlen.
    destruct (zip_with_by_position make bs raws) as [Hzlen Hzip]; [done|].
    split_and!; [|done..]. unfold bind. by rewrite Hrun.
  - intros Hreturns.
    destruct (run_jobs_total (fetch <$> raws) order w) as (bs & w' & Hrun).
    { intros job (raw & -> & _)%list_elem_of_fmap. apply Hreturns. }
    pose proof (Forall2_length _ _ _ (Hfetched _ _ Hrun)) as Hlen.
    exists (zip_with make bs raws), w'. unfold bind. rewrite Hrun. split; [done|].
    rewrite length_zip_with. lia.
Qed.

(** C2: for a non-empty list of records and any order in which the event
    loop carries out the fetches, once the job runner has given the bytes the
    asynchronous conversions return one node per record, in the order of the
    records.  Node [i] holds the base64 text of the bytes that the fetch for
    record [i] returned, the score of record [i], and the metadata of record
    [i] (empty when absent) under the derived keys, which win.  When the
    transport answers every request with a 2xx status the conversions do
    return. *)
Theorem async_nodes_follow_records (E : Env) (client : Client)
    (order : list nat) (project_id : string) (w : World) :
  (∀ raw_image_nodes : list PageScreenshotNodeWithScore,
      raw_image_nodes ≠ [] →
      order ≡ₚ seq 0 (length raw_image_nodes) →
      let fetch raw :=
        aget_page_screenshot E client (ps_file_id (psn_node raw))
          (ps_page_index (psn_node raw)) project_id in
      let run :=
        apage_screenshot_nodes_to_node_with_score E client order
          (Some raw_image_nodes) project_id w in
      (∀ image_bytes_list w',
          run_jobs order (fetch <$> raw_image_nodes) w
          = (Return image_bytes_list, w') →
          ∃ nodes,
            run = (Return nodes, w')
            ∧ length nodes = length raw_image_nodes
            ∧ Forall2 (λ raw b, returned_by (fetch raw) b)
                raw_image_nodes image_bytes_list
            ∧ ∀ i raw,
                raw_image_nodes !! i = Some raw →
                ∃ b n,
                  image_bytes_list !! i = Some b
                  ∧ nodes !! i = Some n
                  ∧ image (node n) = b64encode b
                  ∧ score n = Some (psn_score raw)
                  ∧ ∀ k, metadata (node n) !! k
                         = if decide ("page_index" = k)
                           then Some (PyInt (ps_page_index (psn_node raw)))
                           else if decide ("file_id" = k)
                                then Some (PyStr (ps_file_id (psn_node raw)))
                                else default ∅ (ps_metadata (psn_node raw)) !! k)
      ∧ ((∀ h request, ∃ resp,
             env_send E h request = Return resp ∧ 200 ≤ status_code resp ≤ 299) →
         ∃ nodes w',
           run = (Return nodes, w') ∧ length nodes = length raw_image_nodes))
  ∧ (∀ raw_figure_nodes : list PageFigureNodeWithScore,
        raw_figure_nodes ≠ [] →
        order ≡ₚ seq 0 (length raw_figure_nodes) →
        let fetch raw :=
          aget_page_figure E client (pf_file_id (pfn_node raw))
            (pf_page_index (pfn_node raw)) (pf_figure_name (pfn_node raw))
            project_id in
        let run :=
          apage_figure_nodes_to_node_with_score E client order
            (Some raw_figure_nodes) project_id w in
        (∀ figure_bytes_list w',
            run_jobs order (fetch <$> raw_figure_nodes) w
            = (Return figure_bytes_list, w') →
            ∃ nodes,
              run = (Return nodes, w')
              ∧ length nodes = length raw_figure_nodes
              ∧ Forall2 (λ raw b, returned_by (fetch raw) b)
                  raw_figure_nodes figure_bytes_list
              ∧ ∀ i raw,
                  raw_figure_nodes !! i = Some raw →
                  ∃ b n,
                    figure_bytes_list !! i = Some b
                    ∧ nodes !! i = Some n
                    ∧ image (node n) = b64encode b
                    ∧ score n = Some (pfn_score raw)
                    ∧ ∀ k, metadata (node n) !! k
                           = if decide ("figure_name" = k)
                             then Some (PyStr (pf_figure_name (pfn_node raw)))
                             else if decide ("page_index" = k)
                                  then Some (PyInt (pf_page_index (pfn_node raw)))
                                  else if decide ("file_id" = k)
                                       then Some (PyStr (pf_file_id (pfn_node raw)))
                                       else default ∅ (pf_metadata (pfn_node raw))
                                              !! k)
        ∧ ((∀ h request, ∃ resp,
               env_send E h request = Return resp ∧ 200 ≤ status_code resp ≤ 299) →
           ∃ nodes w',
             run = (Return nodes, w') ∧ length nodes = length raw_figure_nodes)).
Proof.
  split.
  - intros raws Hne Hperm fetch run.
    assert (run = (bs ⇐ run_jobs order (fetch <$> raws) ;;
                   ret (zip_with image_node_with_score bs raws)) w) as ->.
    { subst run. unfold apage_screenshot_nodes_to_node_with_score.
      by destruct raws. }
    destruct (async_conversion fetch image_node_with_score order raws w Hperm)
      as [Hgiven Htotal].
    split.
    + intros bs w' Hrun.
      destruct (Hgiven bs w' Hrun) as (Heq & Hlen & Hall & Hpos).
      eexists. split_and!; [done..|].
      intros i raw Hraw. destruct (Hpos i raw Hraw) as (b & Hb & Hn).
      exists b, (image_node_with_score b raw). split_and!; [done..|].
      intros k. apply image_node_metadata_lookup.
    + intros Hsend. apply Htotal. intros raw w1.
      by apply fetch_returns_on_2xx.
  - intros raws Hne Hperm fetch run.
    assert (run = (bs ⇐ run_jobs order (fetch <$> raws) ;;
                   ret (zip_with figure_node_with_score bs raws)) w) as ->.
    { subst run. unfold apage_figure_nodes_to_node_with_score.
      by destruct raws. }
    destruct (async_conversion fetch figure_node_with_score order raws w Hperm)
      as [Hgiven Htotal].
    split.
    + intros bs w' Hrun.
      destruct (Hgiven bs w' Hrun) as (Heq & Hlen & Hall & Hpos).
      eexists. split_and!; [done..|].
      intros i raw Hraw. destruct (Hpos i raw Hraw) as (b & Hb & Hn).
      exists b, (figure_node_with_score b raw). split_and!; [done..|].
      intros k. apply figure_node_metadata_lookup.
    + intros Hsend. apply Htotal. intros raw w1.
      by apply fetch_returns_on_2xx.
Qed.

(** C9: [None] and the empty list give the empty list, and the world is left
    as it was: no request is sent.  This holds for the four conversions and
    the two legacy aliases. *)
Theorem empty_input_no_fetch (E : Env) (client : Client) (order : list nat)
    (project_id : string) (w : World) :
  page_screenshot_nodes_to_node_with_score E client None project_id w
  = (Return [], w)
  ∧ page_screenshot_nodes_to_node_with_score E client (Some []) project_id w
    = (Return [], w)
  ∧ page_figure_nodes_to_node_with_score E client None project_id w
    = (Return [], w)
  ∧ page_figure_nodes_to_node_with_score E client (Some []) project_id w
    = (Return [], w)
  ∧ apage_screenshot_nodes_to_node_with_score E client order None project_id w
    = (Return [], w)
  ∧ apage_screenshot_nodes_to_node_with_score E client order (Some []) project_id w
    = (Return [], w)
  ∧ apage_figure_nodes_to_node_with_score E client order None project_id w
    = (Return [], w)
  ∧ apage_figure_nodes_to_node_with_score E client order (Some []) project_id w
    = (Return [], w)
  ∧ image_nodes_to_node_with_score E client None project_id w = (Return [], w)
  ∧ image_nodes_to_node_with_score E client (Some []) project_id w
    = (Return [], w)
  ∧ aimage_nodes_to_node_with_score E client order None project_id w
    = (Return [], w)
  ∧ aimage_nodes_to_node_with_score E client order (Some []) project_id w
    = (Return [], w).
Proof. by split_and!. Qed.

(** ** Base64 on known inputs *)

Example b64encode_Man : b64encode ["M"; "a"; "n"]%byte = "TWFu".
Proof. reflexivity. Qed.

Example b64encode_Ma : b64encode ["M"; "a"]%byte = "TWE=".
Proof. reflexivity. Qed.

Example b64encode_M : b64encode ["M"]%byte = "TQ==".
Proof. reflexivity. Qed.

Example b64encode_high : b64encode [xff; xfe; xfd; x00]%byte = "//79AA==".
Proof. reflexivity. Qed.

(** ** The theorems at work on the example service *)

Lemma demo_uuid4_inj (script : list Response) :
  Inj (=) (=) (env_uuid4 (demo_env script)).
Proof.
  intros m n H. simpl in H.
  apply (inj (String.append "uuid-")) in H. by apply (inj pretty) in H.
Qed.

Lemma demo_uuid4_prefix (script : list Response) (n : nat) (id : string) :
  String.prefix "uuid-" id = false → env_uuid4 (demo_env script) n ≠ id.
Proof.
  intros Hid <-. simpl in Hid.
  change (String.prefix "" (pretty n) = false) in Hid.
  by destruct (pretty n).
Qed.

(** A pipeline id decides the project: the caller asked for project
    [proj-2] by id and [beta] by name, and gets the project of [pipe-1]. *)
Lemma resolve_project_and_pipeline_order_witness :
  resolve_project_and_pipeline (demo_env []) example_client (Some "other")
    (Some "pipe-1") (Some "beta") (Some "proj-2") None w0
  = (Return (project_a, pipeline_a),
     mkWorld [Call_get_pipeline "pipe-1"; Call_get_project "proj-1"] 0).
Proof.
  destruct (resolve_project_and_pipeline_order (demo_env []) example_client
              (Some "other") (Some "beta") (Some "proj-2") None w0)
    as (_ & H & _).
  apply (H "pipe-1" pipeline_a project_a); reflexivity.
Defined.

(** No project bears the name: the error message holds the name. *)
Lemma resolve_by_name_counts_witness :
  resolve_project (demo_env []) example_client (Some "gamma") None None w0
  = (Raise (ValueError "No project found with name gamma"),
     mkWorld [Call_list_projects (Some "gamma") None] 0)
  ∧ occurs_in "gamma" "No project found with name gamma".
Proof.
  destruct (resolve_by_name_counts (demo_env []) example_client
              (Some "gamma") None project_a w0) as [H _].
  destruct (H [] eq_refl) as (Hnone & _ & _).
  apply Hnone. reflexivity.
Defined.

(** Two local retrievers made one after the other bear different ids. *)
Lemma resolve_retriever_cases_witness :
  let first :=
    resolve_retriever (demo_env []) example_client project_a (Some "main") None
      false w0 in
  let second :=
    resolve_retriever (demo_env []) example_client project_a (Some "main") None
      false first.2 in
  first.1 = Return (Some (mkRetriever "uuid-0" "proj-1" "main" []))
  ∧ second.1 = Return (Some (mkRetriever "uuid-1" "proj-1" "main" []))
  ∧ "uuid-0" ≠ "uuid-1".
Proof.
  split_and!; [reflexivity..|].
  destruct (resolve_retriever_cases (demo_env []) example_client project_a
              (Some "main") None w0) as (_ & H & _).
  exact (H (demo_uuid4_inj []) project_a (Some "main") None
           (mkRetriever "uuid-0" "proj-1" "main" [])
           (mkRetriever "uuid-1" "proj-1" "main" [])
           (mkWorld [] 1) (mkWorld [] 1) (mkWorld [] 2)
           eq_refl (le_n _) eq_refl).
Defined.

(** A 404 leaves the decorated fetch as an [ApiError] after one request. *)
Lemma fetch_status_decides_witness :
  get_page_screenshot (demo_env [error_response 404 "missing"]) example_client
    "file-0" 1 "proj-1" w0
  = (Raise (ApiError 404 "missing"),
     after_call w0
       (Call_send
          (_build_get_page_screenshot_request
             (demo_env [error_response 404 "missing"]) example_client
             "file-0" 1 "proj-1"))).
Proof.
  destruct (fetch_status_decides (demo_env [error_response 404 "missing"])
              example_client "file-0" 1 "fig-a" "proj-1" w0
              (error_response 404 "missing")) as [H _].
  destruct (H eq_refl) as [_ Hother].
  destruct Hother as (_ & _ & Hdecorated); [simpl; lia|].
  apply Hdecorated. simpl. lia.
Defined.

(** Five answers 503 in a row: five requests, and the fifth [ApiError] comes
    out as it is. *)
Lemma retry_on_failure_at_most_5_witness :
  let busy := error_response 503 "busy" in
  let func :=
    get_page_screenshot_body (demo_env [busy; busy; busy; busy; busy; busy])
      example_client "file-0" 1 "proj-1" in
  ∃ e, retry_on_failure func w0 = attempt func 4 w0
       ∧ (attempt func 4 w0).1 = Raise e
       ∧ e = ApiError 503 "busy"
       ∧ length (calls (retry_on_failure func w0).2) = 5%nat.
Proof.
  intros busy func.
  destruct (retry_on_failure_at_most_5 func w0) as (_ & _ & H).
  destruct H as (e & Heq & He).
  - intros k Hk. exists (ApiError 503 "busy").
    do 5 (destruct k as [|k]; [by split|]). lia.
  - exists e. split_and!; [done..| |].
    + vm_compute in He. by injection He as <-.
    + reflexivity.
Defined.

(** With [persisted] true and the id [ret-1], one call: the fetch by id. *)
Lemma resolve_by_id_only_fetches_witness :
  let run :=
    resolve_retriever (demo_env []) example_client project_a (Some "main")
      (Some "ret-1") true w0 in
  run.2 = after_call w0 (Call_get_retriever "ret-1" "proj-1")
  ∧ run.1 = Return (Some retriever_a).
Proof.
  destruct (resolve_by_id_only_fetches (demo_env []) example_client project_a
              (Some "main") None w0) as (_ & _ & H & _).
  apply (H "ret-1"). discriminate.
Defined.

(** C8 fails as stated: the retriever id [""] is supplied, [persisted] is
    true, and the one call made is the listing by name. *)
Lemma resolve_retriever_empty_id_lists :
  resolve_retriever (demo_env []) example_client project_a (Some "main") (Some "")
    true w0
  = (Return (Some retriever_a),
     mkWorld [Call_list_retrievers "proj-1" "main"] 0).
Proof. reflexivity. Qed.

(** C4 fails as stated: with the id [""] given, no fetch by id is made;
    with the name [""] given, the retriever that the service lists under
    that very name is not returned; and with [persisted] false and no name,
    no retriever is returned: the model of the client refuses the name. *)
Lemma resolve_retriever_empty_strings :
  resolve_retriever (demo_env []) example_client project_a None (Some "") true w0
  = (Return None, w0)
  ∧ env_list_retrievers (demo_env []) [] "proj-1" "" = Return [retriever_unnamed]
  ∧ resolve_retriever (demo_env []) example_client project_a (Some "") None true w0
    = (Return None, w0)
  ∧ resolve_retriever (demo_env []) example_client project_a None None false w0
    = (Raise (ValidationError "Retriever" "name"), mkWorld [] 1).
Proof. by split_and!. Qed.

(** C10 fails as stated: with [persisted] false, an id given and no name, no
    retriever is returned. *)
Lemma resolve_retriever_no_name_raises :
  resolve_retriever (demo_env []) example_client project_a None (Some "ret-1")
    false w0
  = (Raise (ValidationError "Retriever" "name"), mkWorld [] 1).
Proof. reflexivity. Qed.

Lemma demo_uuid4_apart (script : list Response) :
  uuid4_apart_from_service (demo_env script).
Proof.
  intros n h id project_id retriever Hget.
  cbn [env_get_retriever demo_env scripted_env find Retriever_id retriever_a
         retriever_unnamed] in Hget.
  apply demo_uuid4_prefix.
  destruct (String.eqb_spec "ret-1" id) as [<-|_]; [reflexivity|].
  destruct (String.eqb_spec "ret-2" id) as [<-|_]; [reflexivity|].
  discriminate Hget.
Qed.

(** The id [ret-1] names a retriever of the service; with [persisted] false
    it is set aside and the local retriever bears [uuid-0]. *)
Lemma resolve_retriever_not_persisted_ignores_id_witness :
  env_get_retriever (demo_env []) [] "ret-1" "proj-1" = Return retriever_a
  ∧ resolve_retriever (demo_env []) example_client project_a (Some "main")
      (Some "ret-1") false w0
    = (Return (Some (mkRetriever "uuid-0" "proj-1" "main" [])),
       mkWorld [] 1)
  ∧ ∃ retriever,
      (resolve_retriever (demo_env []) example_client project_a (Some "main")
         (Some "ret-1") false w0).1 = Return (Some retriever)
      ∧ Retriever_id retriever ≠ "ret-1".
Proof.
  split_and!; [reflexivity..|].
  destruct (resolve_retriever_not_persisted_ignores_id (demo_env [])
              example_client project_a (Some "main") "ret-1" w0)
    as (_ & _ & _ & Hnamed).
  destruct (Hnamed "main" eq_refl)
    as (retriever & Hrun & _ & Hdiffers & _).
  exists retriever. split; [exact Hrun|].
  apply Hdiffers; [apply demo_uuid4_apart|].
  by exists retriever_a.
Defined.

(** Two records, the second fetched first: the nodes still follow the
    records. *)
Lemma async_nodes_follow_records_witness :
  let E := demo_env [ok_response ["M"; "a"; "n"]%byte; ok_response ["M"]%byte] in
  ∃ nodes,
    apage_screenshot_nodes_to_node_with_score E example_client [1; 0]%nat
      (Some [record_0; record_1]) "proj-1" w0
    = (Return nodes,
       mkWorld
         [Call_send (_build_get_page_screenshot_request E example_client
                       "file-1" 2 "proj-1");
          Call_send (_build_get_page_screenshot_request E example_client
                       "file-0" 1 "proj-1")] 0)
    ∧ length nodes = 2%nat
    ∧ (image ∘ node) <$> nodes = ["TQ=="; "TWFu"]
    ∧ score <$> nodes = [Some 0.75%float; Some 0.5%float].
Proof.
  intros E.
  destruct (async_nodes_follow_records E example_client [1; 0]%nat "proj-1" w0)
    as [H _].
  destruct (H [record_0; record_1]) as [Hgiven _];
    [discriminate | apply perm_swap |].
  destruct (Hgiven [["M"]%byte; ["M"; "a"; "n"]%byte]
              (mkWorld
                 [Call_send (_build_get_page_screenshot_request E example_client
                               "file-1" 2 "proj-1");
                  Call_send (_build_get_page_screenshot_request E example_client
                               "file-0" 1 "proj-1")] 0)
              eq_refl)
    as (nodes & Hrun & Hlen & _ & _).
  exists nodes. split_and!; [done..| |].
  - vm_compute in Hrun. by injection Hrun as <-.
  - vm_compute in Hrun. by injection Hrun as <-.
Defined.

(** ** More runs on the example service *)

(** Two answers 503, then the image: three requests, and the bytes. *)
Example get_page_screenshot_retries :
  let busy := error_response 503 "busy" in
  let run :=
    get_page_screenshot (demo_env [busy; busy; ok_response ["M"]%byte])
      example_client "file-0" 1 "proj-1" w0 in
  run.1 = Return ["M"]%byte ∧ length (calls run.2) = 3%nat.
Proof. by split. Qed.

(** The synchronous conversion of a figure record whose own metadata has a
    [figure_name]: the derived one replaces it. *)
Example page_figure_nodes_derived_keys :
  ∃ n w',
    page_figure_nodes_to_node_with_score (demo_env [ok_response ["M"; "a"]%byte])
      example_client (Some [figure_0]) "proj-1" w0 = (Return [n], w')
    ∧ image (node n) = "TWE="
    ∧ metadata (node n) !! "figure_name" = Some (PyStr "fig-a")
    ∧ metadata (node n) !! "file_id" = Some (PyStr "file-0")
    ∧ metadata (node n) !! "page_index" = Some (PyInt 3)
    ∧ score n = Some 0.25%float.
Proof. eexists _, _. split; [reflexivity|]. by split_and!. Qed.

(** Two pipelines of one name in a project. *)
Example resolve_pipeline_ambiguous :
  resolve_pipeline
    (scripted_env [project_a]
       [pipeline_a; mkPipeline "pipe-2" "docs" "proj-1" "MANAGED"] [] [])
    example_client None (Some project_a) (Some "docs") w0
  = (Raise (ValueError "Multiple pipelines found with name docs in project alpha"),
     mkWorld [Call_search_pipelines "proj-1" (Some "docs") "MANAGED"] 0).
Proof. reflexivity. Qed.

(** A search by name with no project at hand fails before any call. *)
Example resolve_pipeline_without_project :
  resolve_pipeline (demo_env []) example_client None None (Some "docs") w0
  = (Raise (AttributeError "'NoneType' object has no attribute 'id'"), w0).
Proof. reflexivity. Qed.

(** * Further properties *)

(** ** The request log of the fetch functions *)

Lemma with_calls_nil (w : World) : with_calls w [] = w.
Proof. destruct w as [cs n]. unfold with_calls. simpl. by rewrite app_nil_r. Qed.

Lemma with_calls_one (w : World) (c : Call) : with_calls w [c] = after_call w c.
Proof. reflexivity. Qed.

Lemma with_calls_app (w : World) (cs cs' : list Call) :
  with_calls (with_calls w cs) cs' = with_calls w (cs ++ cs').
Proof. unfold with_calls. simpl. by rewrite app_assoc. Qed.

Lemma with_calls_after_call (w : World) (c : Call) (cs : list Call) :
  with_calls (after_call w c) cs = with_calls w (c :: cs).
Proof. rewrite <- with_calls_one, with_calls_app. reflexivity. Qed.

(** One attempt of a fetch logs its request, whatever the answer. *)
Lemma fetch_attempt_log (E : Env) (request : Request) (w : World) :
  ((_response ⇐ remote (Call_send request) (λ h, env_send E h request) ;;
    if (200 <=? status_code _response) && (status_code _response <? 300)
    then ret (content _response)
    else raise (ApiError (status_code _response) (text _response))) w).2
  = after_call w (Call_send request).
Proof.
  unfold bind, remote.
  destruct (env_send E (calls w) request) as [resp|e]; [|done].
  by destruct ((200 <=? status_code resp) && (status_code resp <? 300)).
Qed.

(** When every call of [func] logs the one call [c], the loop logs [c] once
    per attempt. *)
Lemma retrying_log {A} (p : exn → bool) (func : Py A) (c : Call) :
  (∀ w, (func w).2 = after_call w c) →
  ∀ left w, ∃ k : nat,
    (1 ≤ k ≤ S left)%nat
    ∧ (retrying p left func w).2 = with_calls w (replicate k c).
Proof.
  intros Hlog. induction left as [|left IH]; intros w; simpl;
    pose proof (Hlog w) as Hw; destruct (func w) as [[a|e] w1]; simpl in Hw;
    subst w1.
  - exists 1%nat. split; [lia|done].
  - exists 1%nat. split; [lia|]. by destruct (p e).
  - exists 1%nat. split; [lia|done].
  - destruct (p e).
    + destruct (IH (after_call w c)) as (k & Hk & Heq).
      exists (S k). split; [lia|]. rewrite Heq. apply with_calls_after_call.
    + exists 1%nat. split; [lia|done].
Qed.

(** The outcome of one attempt is read off the answer to its request. *)
Lemma fetch_attempt_outcome (E : Env) (request : Request) (w : World) :
  ((_response ⇐ remote (Call_send request) (λ h, env_send E h request) ;;
    if (200 <=? status_code _response) && (status_code _response <? 300)
    then ret (content _response)
    else raise (ApiError (status_code _response) (text _response))) w).1
  = match env_send E (calls w) request with
    | Return resp =>
        if (200 <=? status_code resp) && (status_code resp <? 300)
        then Return (content resp)
        else Raise (ApiError (status_code resp) (text resp))
    | Raise e => Raise e
    end.
Proof.
  unfold bind, remote.
  destruct (env_send E (calls w) request) as [resp|e]; [|done].
  by destruct ((200 <=? status_code resp) && (status_code resp <? 300)).
Qed.

(** When every call of [func] logs the one call [c], the call number [n] is
    made from the world with [n] such calls. *)
Lemma attempt_log {A} (func : Py A) (c : Call) :
  (∀ w, (func w).2 = after_call w c) →
  ∀ n w, attempt func n w = func (with_calls w (replicate n c)).
Proof.
  intros Hlog. induction n as [|n IH]; intros w; simpl.
  - by rewrite with_calls_nil.
  - by rewrite IH, Hlog, with_calls_after_call.
Qed.

(** A decorated fetch ends on the answer to one of its first five sendings:
    the world has the request that many times more, and the outcome is read
    off that last answer. *)
Lemma retry_fetch_last_answer (E : Env) (request : Request) (w : World) :
  ∃ n : nat,
    (n < 5)%nat
    ∧ retry_on_failure
        (_response ⇐ remote (Call_send request) (λ h, env_send E h request) ;;
         if (200 <=? status_code _response) && (status_code _response <? 300)
         then ret (content _response)
         else raise (ApiError (status_code _response) (text _response))) w
      = (match env_send E (calls w ++ replicate n (Call_send request)) request with
         | Return resp =>
             if (200 <=? status_code resp) && (status_code resp <? 300)
             then Return (content resp)
             else Raise (ApiError (status_code resp) (text resp))
         | Raise e => Raise e
         end,
         with_calls w (replicate (S n) (Call_send request))).
Proof.
  unfold retry_on_failure.
  destruct (retrying_attempt is_retryable_http_error
              (_response ⇐ remote (Call_send request) (λ h, env_send E h request) ;;
               if (200 <=? status_code _response) && (status_code _response <? 300)
               then ret (content _response)
               else raise (ApiError (status_code _response) (text _response)))
              (stop_after_attempt - 1) w) as (n & Hn & Heq & _).
  exists n. split; [simpl in Hn; lia|].
  rewrite Heq, (attempt_log _ (Call_send request)
                  (λ w, fetch_attempt_log E request w)).
  apply injective_projections.
  - by rewrite fetch_attempt_outcome.
  - rewrite fetch_attempt_log. simpl.
    by rewrite <- with_calls_one, with_calls_app, <- replicate_S_end.
Qed.

(** X1: each of the four fetch functions sends one and the same request, at
    least once and at most five times, makes no other change to the world,
    and ends on the answer to the last sending: the body of a 2xx answer is
    returned, any other answer is raised as an [ApiError] with its status
    and text, and an exception of the transport is raised as it is. *)
Theorem fetch_sends_one_request (E : Env) (client : Client) (file_id : string)
    (page_index : Z) (figure_name project_id : string) (w : World) :
  let shot :=
    _build_get_page_screenshot_request E client file_id page_index project_id in
  let fig :=
    _build_get_page_figure_request E client file_id page_index figure_name
      project_id in
  let ends_on request n :=
    (match env_send E (calls w ++ replicate n (Call_send request)) request with
     | Return resp =>
         if (200 <=? status_code resp) && (status_code resp <? 300)
         then Return (content resp)
         else Raise (ApiError (status_code resp) (text resp))
     | Raise e => Raise e
     end,
     with_calls w (replicate (S n) (Call_send request))) in
  (∃ n : nat,
      (n < 5)%nat
      ∧ get_page_screenshot E client file_id page_index project_id w
        = ends_on shot n)
  ∧ (∃ n : nat,
        (n < 5)%nat
        ∧ aget_page_screenshot E client file_id page_index project_id w
          = ends_on shot n)
  ∧ (∃ n : nat,
        (n < 5)%nat
        ∧ get_page_figure E client file_id page_index figure_name project_id w
          = ends_on fig n)
  ∧ (∃ n : nat,
        (n < 5)%nat
        ∧ aget_page_figure E client file_id page_index figure_name project_id w
          = ends_on fig n).
Proof.
  intros shot fig ends_on. split_and!; apply retry_fetch_last_answer.
Qed.

(** ** Retries against a given run of answers *)

(** When the attempts number 0 to [n - 1] raise exceptions that [p] accepts
    and attempt number [n] ends the loop (it returns, or [p] rejects what it
    raises, or it is the last one allowed), the loop gives the outcome of
    attempt [n] after [n + 1] calls. *)
Lemma retrying_script {A} (p : exn → bool) (func : Py A) (c : Call) :
  (∀ w, (func w).2 = after_call w c) →
  ∀ (left n : nat) (w : World) (r : result A),
    (n ≤ left)%nat →
    (∀ k, (k < n)%nat →
          ∃ e, (func (with_calls w (replicate k c))).1 = Raise e ∧ p e = true) →
    (func (with_calls w (replicate n c))).1 = r →
    n = left ∨ match r with Return _ => True | Raise e => p e = false end →
    retrying p left func w = (r, with_calls w (replicate (S n) c)).
Proof.
  intros Hlog. induction left as [|left IH]; intros n w r Hn Hbefore Hr Hends.
  - assert (n = 0%nat) as -> by lia. simpl in *. rewrite with_calls_nil in Hr.
    pose proof (Hlog w) as Hw. destruct (func w) as [[a|e] w1]; simpl in *;
      subst; [done|]. by destruct (p e).
  - destruct n as [|n].
    + simpl in *. rewrite with_calls_nil in Hr. pose proof (Hlog w) as Hw.
      destruct (func w) as [[a|e] w1]; simpl in *; subst; [done|].
      destruct Hends as [?|Hp]; [lia|]. by rewrite Hp.
    + destruct (Hbefore 0%nat ltac:(lia)) as (e & He & Hp).
      simpl in He. rewrite with_calls_nil in He. simpl.
      pose proof (Hlog w) as Hw. destruct (func w) as [[a|e'] w1]; simpl in *;
        [done|]. injection He as ->. subst w1. rewrite Hp.
      rewrite (IH n (after_call w c) r).
      * by rewrite with_calls_after_call.
      * lia.
      * intros k Hk. rewrite with_calls_after_call.
        apply (Hbefore (S k)). lia.
      * by rewrite with_calls_after_call.
      * destruct Hends as [?|?]; [left; lia|by right].
Qed.

(** A decorated fetch against [n] answers 5xx followed by the answer
    [resp]. *)
Lemma retry_fetch_script (E : Env) (request : Request) (w : World) (n : nat)
    (resp : Response) :
  (n ≤ 4)%nat →
  n = 4%nat ∨ ¬ 500 ≤ status_code resp ≤ 599 →
  (∀ k, (k < n)%nat →
        ∃ r, env_send E (calls w ++ replicate k (Call_send request)) request
             = Return r
             ∧ 500 ≤ status_code r ≤ 599) →
  env_send E (calls w ++ replicate n (Call_send request)) request = Return resp →
  retry_on_failure
    (_response ⇐ remote (Call_send request) (λ h, env_send E h request) ;;
     if (200 <=? status_code _response) && (status_code _response <? 300)
     then ret (content _response)
     else raise (ApiError (status_code _response) (text _response))) w
  = (if (200 <=? status_code resp) && (status_code resp <? 300)
     then Return (content resp)
     else Raise (ApiError (status_code resp) (text resp)),
     with_calls w (replicate (S n) (Call_send request))).
Proof.
  intros Hn Hends Hbefore Hresp. unfold retry_on_failure.
  apply (retrying_script _ _ (Call_send request)
           (λ w, fetch_attempt_log E request w)); [done| | |].
  - intros k Hk. destruct (Hbefore k Hk) as (r & Hr & H5xx).
    exists (ApiError (status_code r) (text r)).
    rewrite fetch_attempt_outcome. simpl. rewrite Hr.
    assert ((200 <=? status_code r) && (status_code r <? 300) = false) as ->.
    { apply not_in_2xx_spec. lia. }
    split; [done|]. simpl. by apply in_5xx_spec.
  - rewrite fetch_attempt_outcome. simpl. by rewrite Hresp.
  - destruct Hends as [->|Hnot]; [by left|right].
    destruct ((200 <=? status_code resp) && (status_code resp <? 300)); [done|].
    simpl. apply not_true_is_false. by rewrite in_5xx_spec.
Qed.

(** X2: when the transport answers the first [n] sendings of the request
    with a 5xx status ([n] at most 4) and the next one with [resp], and
    [resp] is not a 5xx or is the fifth answer, the decorated fetch sends the
    request [n + 1] times and ends on [resp]: its body when the status is
    2xx, an [ApiError] with its status and text otherwise. *)
Theorem fetch_ends_on_first_final_answer (E : Env) (client : Client)
    (file_id : string) (page_index : Z) (figure_name project_id : string)
    (w : World) (n : nat) (resp : Response) :
  let shot :=
    _build_get_page_screenshot_request E client file_id page_index project_id in
  let fig :=
    _build_get_page_figure_request E client file_id page_index figure_name
      project_id in
  let answered request :=
    (∀ k, (k < n)%nat →
          ∃ r, env_send E (calls w ++ replicate k (Call_send request)) request
               = Return r
               ∧ 500 ≤ status_code r ≤ 599)
    ∧ env_send E (calls w ++ replicate n (Call_send request)) request
      = Return resp in
  let final :=
    if (200 <=? status_code resp) && (status_code resp <? 300)
    then Return (content resp)
    else Raise (ApiError (status_code resp) (text resp)) in
  (n ≤ 4)%nat →
  n = 4%nat ∨ ¬ 500 ≤ status_code resp ≤ 599 →
  (answered shot →
   let out := (final, with_calls w (replicate (S n) (Call_send shot))) in
   get_page_screenshot E client file_id page_index project_id w = out
   ∧ aget_page_screenshot E client file_id page_index project_id w = out)
  ∧ (answered fig →
     let out := (final, with_calls w (replicate (S n) (Call_send fig))) in
     get_page_figure E client file_id page_index figure_name project_id w = out
     ∧ aget_page_figure E client file_id page_index figure_name project_id w
       = out).
Proof.
  intros shot fig answered final Hn Hends.
  split; intros [Hbefore Hresp] out; split;
    by apply retry_fetch_script.
Qed.

(** Two answers 503, then a 404: three requests and the [ApiError] of the
    404. *)
Lemma fetch_ends_on_first_final_answer_witness :
  let busy := error_response 503 "busy" in
  let E := demo_env [busy; busy; error_response 404 "missing"; ok_response []] in
  get_page_screenshot E example_client "file-0" 1 "proj-1" w0
  = (Raise (ApiError 404 "missing"),
     with_calls w0
       (replicate 3
          (Call_send
             (_build_get_page_screenshot_request E example_client "file-0" 1
                "proj-1")))).
Proof.
  intros busy E.
  destruct (fetch_ends_on_first_final_answer E example_client "file-0" 1 "fig-a"
              "proj-1" w0 2 (error_response 404 "missing")) as [H _].
  - lia.
  - right. simpl. lia.
  - apply H. split; [|reflexivity].
    intros k Hk. exists busy.
    destruct k as [|[|k]]; [split; [reflexivity|simpl; lia]..|lia].
Defined.

(** ** The synchronous conversions *)

Lemma fetched_in_turn_length {A} (fetch : A → Py bytes) (raws : list A)
    (w w' : World) (bs : list bytes) :
  fetched_in_turn fetch raws w bs w' → length bs = length raws.
Proof. induction 1; simpl; congruence. Qed.

Lemma for_each_fetch_cons {A} (fetch : A → Py bytes)
    (make : bytes → A → NodeWithScore) (raw : A) (raws : list A) (w : World) :
  for_each (λ raw, b ⇐ fetch raw ;; ret (make b raw)) (raw :: raws) w
  = match fetch raw w with
    | (Return b, w1) =>
        match for_each (λ raw, b ⇐ fetch raw ;; ret (make b raw)) raws w1 with
        | (Return nodes, w2) => (Return (make b raw :: nodes), w2)
        | (Raise e, w2) => (Raise e, w2)
        end
    | (Raise e, w1) => (Raise e, w1)
    end.
Proof.
  simpl. unfold bind at 1 2. destruct (fetch raw w) as [[b|e] w1]; [|done].
  unfold ret at 1. unfold bind at 1.
  by destruct (for_each _ raws w1) as [[nodes|e] w2].
Qed.

(** The loop of a synchronous conversion returns exactly when the fetches
    succeed in turn. *)
Lemma for_each_fetch_Return {A} (fetch : A → Py bytes)
    (make : bytes → A → NodeWithScore) (raws : list A) (w w' : World)
    (nodes : list NodeWithScore) :
  for_each (λ raw, b ⇐ fetch raw ;; ret (make b raw)) raws w = (Return nodes, w')
  ↔ ∃ bs, fetched_in_turn fetch raws w bs w' ∧ nodes = zip_with make bs raws.
Proof.
  split.
  - revert w nodes. induction raws as [|raw raws IH]; intros w nodes.
    + intros [= <- <-]. exists []. split; [constructor|done].
    + rewrite for_each_fetch_cons.
      destruct (fetch raw w) as [[b|e] w1] eqn:Hfetch; [|done].
      destruct (for_each _ raws w1) as [[ys|e] w2] eqn:Hrest; [|done].
      intros [= <- <-]. destruct (IH _ _ Hrest) as (bs & Hturn & ->).
      exists (b :: bs). split; [by econstructor|done].
  - intros (bs & Hturn & ->).
    induction Hturn as [w|raw raws w w1 w' b bs Hfetch Hturn IH]; [done|].
    by rewrite for_each_fetch_cons, Hfetch, IH.
Qed.

(** The loop raises exactly when some fetch raises after the ones before it
    have succeeded; the world is the one this fetch left. *)
Lemma for_each_fetch_Raise {A} (fetch : A → Py bytes)
    (make : bytes → A → NodeWithScore) (raws : list A) (w w' : World) (e : exn) :
  for_each (λ raw, b ⇐ fetch raw ;; ret (make b raw)) raws w = (Raise e, w')
  ↔ ∃ before raw after bs w1,
      raws = (before ++ raw :: after)%list
      ∧ fetched_in_turn fetch before w bs w1
      ∧ fetch raw w1 = (Raise e, w').
Proof.
  split.
  - revert w. induction raws as [|raw raws IH]; intros w; [done|].
    rewrite for_each_fetch_cons.
    destruct (fetch raw w) as [[b|e1] w1] eqn:Hfetch.
    + destruct (for_each _ raws w1) as [[ys|e2] w2] eqn:Hrest; [done|].
      intros [= <- <-].
      destruct (IH _ Hrest) as (before & raw' & after & bs & w3 & -> & Hturn & Hr).
      exists (raw :: before), raw', after, (b :: bs), w3.
      split_and!; [done| |done]. by econstructor.
    + intros [= <- <-]. exists [], raw, raws, [], w.
      split_and!; [done| |done]. constructor.
  - intros (before & raw & after & bs & w1 & -> & Hturn & Hraise).
    induction Hturn as [w|raw0 raws w w1 w2 b bs Hfetch Hturn IH]; cbn [app].
    + by rewrite for_each_fetch_cons, Hraise.
    + rewrite for_each_fetch_cons, Hfetch, IH; done.
Qed.

Lemma page_screenshot_nodes_for_each (E : Env) (client : Client)
    (raws : list PageScreenshotNodeWithScore) (project_id : string) :
  page_screenshot_nodes_to_node_with_score E client (Some raws) project_id
  = for_each
      (λ raw, b ⇐ get_page_screenshot E client (ps_file_id (psn_node raw))
                    (ps_page_index (psn_node raw)) project_id ;;
              ret (image_node_with_score b raw))
      raws.
Proof. by destruct raws. Qed.

Lemma page_figure_nodes_for_each (E : Env) (client : Client)
    (raws : list PageFigureNodeWithScore) (project_id : string) :
  page_figure_nodes_to_node_with_score E client (Some raws) project_id
  = for_each
      (λ raw, b ⇐ get_page_figure E client (pf_file_id (pfn_node raw))
                    (pf_page_index (pfn_node raw)) (pf_figure_name (pfn_node raw))
                    project_id ;;
              ret (figure_node_with_score b raw))
      raws.
Proof. by destruct raws. Qed.

(** X3: a synchronous conversion returns exactly when the fetches for the
    records succeed one after the other, each from the world the one before
    left; it then gives one node per record, in the order of the records,
    node [i] made of the bytes fetched for record [i], and the world is the
    one the last fetch left. *)
Theorem sync_conversion_returns (E : Env) (client : Client)
    (project_id : string) (w w' : World) (nodes : list NodeWithScore) :
  (∀ raw_image_nodes,
      let fetch raw :=
        get_page_screenshot E client (ps_file_id (psn_node raw))
          (ps_page_index (psn_node raw)) project_id in
      page_screenshot_nodes_to_node_with_score E client (Some raw_image_nodes)
        project_id w = (Return nodes, w')
      ↔ ∃ image_bytes_list,
          fetched_in_turn fetch raw_image_nodes w image_bytes_list w'
          ∧ length image_bytes_list = length raw_image_nodes
          ∧ nodes = zip_with image_node_with_score image_bytes_list
                      raw_image_nodes)
  ∧ (∀ raw_figure_nodes,
        let fetch raw :=
          get_page_figure E client (pf_file_id (pfn_node raw))
            (pf_page_index (pfn_node raw)) (pf_figure_name (pfn_node raw))
            project_id in
        page_figure_nodes_to_node_with_score E client (Some raw_figure_nodes)
          project_id w = (Return nodes, w')
        ↔ ∃ figure_bytes_list,
            fetched_in_turn fetch raw_figure_nodes w figure_bytes_list w'
            ∧ length figure_bytes_list = length raw_figure_nodes
            ∧ nodes = zip_with figure_node_with_score figure_bytes_list
                        raw_figure_nodes).
Proof.
  split; intros raws fetch.
  - rewrite page_screenshot_nodes_for_each, for_each_fetch_Return.
    split; intros (bs & Hturn & Hrest); exists bs.
    + split_and!; [done| |done]. by eapply fetched_in_turn_length.
    + by destruct Hrest.
  - rewrite page_figure_nodes_for_each, for_each_fetch_Return.
    split; intros (bs & Hturn & Hrest); exists bs.
    + split_and!; [done| |done]. by eapply fetched_in_turn_length.
    + by destruct Hrest.
Qed.

(** X4: a synchronous conversion raises exactly when the fetch for some
    record raises after the fetches for the records before it have succeeded
    in turn.  The exception is the one of this fetch, the world is the one it
    left: the records after it are not fetched, and no node is given. *)
Theorem sync_conversion_raises (E : Env) (client : Client)
    (project_id : string) (w w' : World) (e : exn) :
  (∀ raw_image_nodes,
      let fetch raw :=
        get_page_screenshot E client (ps_file_id (psn_node raw))
          (ps_page_index (psn_node raw)) project_id in
      page_screenshot_nodes_to_node_with_score E client (Some raw_image_nodes)
        project_id w = (Raise e, w')
      ↔ ∃ before raw after image_bytes_list w1,
          raw_image_nodes = (before ++ raw :: after)%list
          ∧ fetched_in_turn fetch before w image_bytes_list w1
          ∧ fetch raw w1 = (Raise e, w'))
  ∧ (∀ raw_figure_nodes,
        let fetch raw :=
          get_page_figure E client (pf_file_id (pfn_node raw))
            (pf_page_index (pfn_node raw)) (pf_figure_name (pfn_node raw))
            project_id in
        page_figure_nodes_to_node_with_score E client (Some raw_figure_nodes)
          project_id w = (Raise e, w')
        ↔ ∃ before raw after figure_bytes_list w1,
            raw_figure_nodes = (before ++ raw :: after)%list
            ∧ fetched_in_turn fetch before w figure_bytes_list w1
            ∧ fetch raw w1 = (Raise e, w')).
Proof.
  split; intros raws fetch.
  - by rewrite page_screenshot_nodes_for_each, for_each_fetch_Raise.
  - by rewrite page_figure_nodes_for_each, for_each_fetch_Raise.
Qed.

(** ** The request log of the synchronous conversions *)

Lemma bind_ret_world {A B} (m : Py A) (f : A → B) (w : World) :
  ((a ⇐ m ;; ret (f a)) w).2 = (m w).2.
Proof. unfold bind, ret. by destruct (m w) as [[a|e] w1]. Qed.

Lemma for_each_cons {A B} (body : A → Py B) (x : A) (l : list A) (w : World) :
  for_each body (x :: l) w
  = match body x w with
    | (Return y, w1) =>
        match for_each body l w1 with
        | (Return ys, w2) => (Return (y :: ys), w2)
        | (Raise e, w2) => (Raise e, w2)
        end
    | (Raise e, w1) => (Raise e, w1)
    end.
Proof.
  simpl. unfold bind at 1 2. destruct (body x w) as [[y|e] w1]; [|done].
  unfold ret. by destruct (for_each body l w1) as [[ys|e] w2].
Qed.

(** The calls of a loop: one block per element reached, in the order of the
    list; every element is reached when the loop returns. *)
Lemma for_each_log {A B} (body : A → Py B) (c : A → Call) (hi : nat) :
  (∀ x w, ∃ k : nat,
      (1 ≤ k ≤ hi)%nat ∧ (body x w).2 = with_calls w (replicate k (c x))) →
  ∀ l w, ∃ ks : list nat,
    (length ks ≤ length l)%nat
    ∧ Forall (λ k, 1 ≤ k ≤ hi)%nat ks
    ∧ (for_each body l w).2
      = with_calls w (concat (zip_with (λ k x, replicate k (c x)) ks l))
    ∧ (∀ ys, (for_each body l w).1 = Return ys → length ks = length l).
Proof.
  intros Hbody. induction l as [|x l IH]; intros w.
  - exists []. simpl. split_and!; [done|constructor| |done].
    by rewrite with_calls_nil.
  - destruct (Hbody x w) as (k & Hk & Hlog). rewrite for_each_cons.
    destruct (body x w) as [[y|e] w1]; simpl in Hlog; subst w1.
    + destruct (IH (with_calls w (replicate k (c x))))
        as (ks & Hlen & Hks & Hw & Hret).
      exists (k :: ks).
      destruct (for_each body l (with_calls w (replicate k (c x))))
        as [[ys|e] w2]; simpl in *; subst w2.
      * split_and!; [lia|by constructor|by rewrite with_calls_app|].
        intros ? _. f_equal. by eapply Hret.
      * split_and!; [lia|by constructor|by rewrite with_calls_app|done].
    + exists [k]. simpl. split_and!; [lia|by apply Forall_singleton| |done].
      by rewrite app_nil_r.
Qed.

Lemma blocks_length {A} (c : A → Call) (hi : nat) (l : list A) :
  ∀ ks : list nat,
    (length ks ≤ length l)%nat → Forall (λ k, 1 ≤ k ≤ hi)%nat ks →
    (length ks ≤ length (concat (zip_with (λ k x, replicate k (c x)) ks l))
     ≤ hi * length ks)%nat.
Proof.
  induction l as [|x l IH]; intros [|k ks] Hlen Hks; simpl in *; try lia.
  inversion Hks as [|? ? Hk Hks']; subst.
  rewrite length_app, length_replicate.
  specialize (IH ks ltac:(lia) Hks'). lia.
Qed.

(** X5: the requests of a synchronous conversion come in blocks, one block
    per record in the order of the records, each block the request of its
    record sent one to five times.  When the conversion returns there is a
    block for every record; otherwise the blocks stop at the record whose
    fetch failed.  So between [n] and [5 n] requests are sent for [n] records
    when it returns, never more than [5 n], and nothing else is called. *)
Theorem sync_conversion_log (E : Env) (client : Client) (project_id : string)
    (w : World) :
  (∀ raw_image_nodes,
      let request raw :=
        _build_get_page_screenshot_request E client (ps_file_id (psn_node raw))
          (ps_page_index (psn_node raw)) project_id in
      let run :=
        page_screenshot_nodes_to_node_with_score E client (Some raw_image_nodes)
          project_id w in
      ∃ tries : list nat,
        (length tries ≤ length raw_image_nodes)%nat
        ∧ Forall (λ k, 1 ≤ k ≤ 5)%nat tries
        ∧ run.2
          = with_calls w
              (concat (zip_with (λ k raw, replicate k (Call_send (request raw)))
                         tries raw_image_nodes))
        ∧ (length (new_calls w run.2) ≤ 5 * length raw_image_nodes)%nat
        ∧ (∀ nodes, run.1 = Return nodes →
                    length tries = length raw_image_nodes
                    ∧ (length raw_image_nodes ≤ length (new_calls w run.2))%nat))
  ∧ (∀ raw_figure_nodes,
        let request raw :=
          _build_get_page_figure_request E client (pf_file_id (pfn_node raw))
            (pf_page_index (pfn_node raw)) (pf_figure_name (pfn_node raw))
            project_id in
        let run :=
          page_figure_nodes_to_node_with_score E client (Some raw_figure_nodes)
            project_id w in
        ∃ tries : list nat,
          (length tries ≤ length raw_figure_nodes)%nat
          ∧ Forall (λ k, 1 ≤ k ≤ 5)%nat tries
          ∧ run.2
            = with_calls w
                (concat (zip_with (λ k raw, replicate k (Call_send (request raw)))
                           tries raw_figure_nodes))
          ∧ (length (new_calls w run.2) ≤ 5 * length raw_figure_nodes)%nat
          ∧ (∀ nodes, run.1 = Return nodes →
                      length tries = length raw_figure_nodes
                      ∧ (length raw_figure_nodes
                         ≤ length (new_calls w run.2))%nat)).
Proof.
  assert (∀ (w : World) (cs : list Call), new_calls w (with_calls w cs) = cs)
    as Hnew.
  { intros w1 cs. unfold new_calls, with_calls. simpl. by rewrite drop_app_length. }
  split; intros raws request run; subst run.
  - rewrite page_screenshot_nodes_for_each.
    destruct (for_each_log
                (λ raw, b ⇐ get_page_screenshot E client (ps_file_id (psn_node raw))
                              (ps_page_index (psn_node raw)) project_id ;;
                        ret (image_node_with_score b raw))
                (λ raw, Call_send (request raw)) 5) with (l := raws) (w := w)
      as (ks & Hlen & Hks & Hw & Hret).
    { intros raw w1. rewrite bind_ret_world.
      apply (retrying_log is_retryable_http_error _ _
               (λ w, fetch_attempt_log E _ w) 4 w1). }
    pose proof (blocks_length (λ raw, Call_send (request raw)) 5 raws ks Hlen Hks)
      as Hblocks.
    exists ks. rewrite Hw, Hnew. split_and!; [done..|lia|].
    intros nodes Hnodes. specialize (Hret nodes Hnodes). lia.
  - rewrite page_figure_nodes_for_each.
    destruct (for_each_log
                (λ raw, b ⇐ get_page_figure E client (pf_file_id (pfn_node raw))
                              (pf_page_index (pfn_node raw))
                              (pf_figure_name (pfn_node raw)) project_id ;;
                        ret (figure_node_with_score b raw))
                (λ raw, Call_send (request raw)) 5) with (l := raws) (w := w)
      as (ks & Hlen & Hks & Hw & Hret).
    { intros raw w1. rewrite bind_ret_world.
      apply (retrying_log is_retryable_http_error _ _
               (λ w, fetch_attempt_log E _ w) 4 w1). }
    pose proof (blocks_length (λ raw, Call_send (request raw)) 5 raws ks Hlen Hks)
      as Hblocks.
    exists ks. rewrite Hw, Hnew. split_and!; [done..|lia|].
    intros nodes Hnodes. specialize (Hret nodes Hnodes). lia.
Qed.

(** ** The request log of the asynchronous conversions *)

Lemma omap_lookup_seq_S {A} (x : A) (l : list A) (n : nat) :
  ∀ j, omap (λ i, (x :: l) !! i) (seq (S j) n) = omap (λ i, l !! i) (seq j n).
Proof.
  induction n as [|n IH]; intros j; [done|].
  simpl. destruct (l !! j); by rewrite IH.
Qed.

Lemma omap_lookup_seq {A} (l : list A) :
  omap (λ i, l !! i) (seq 0 (length l)) = l.
Proof.
  induction l as [|x l IH]; [done|].
  simpl. by rewrite omap_lookup_seq_S, IH.
Qed.

(** The records in the order in which their tasks are carried out are the
    records, in another order. *)
Lemma scheduled_Permutation {A} (raws : list A) (order : list nat) :
  order ≡ₚ seq 0 (length raws) → omap (λ i, raws !! i) order ≡ₚ raws.
Proof. intros ->. by rewrite omap_lookup_seq. Qed.

(** The calls of the job runner: one block per task carried out, in the
    order in which they are carried out. *)
Lemma run_in_order_log {A B} (f : A → Py B) (c : A → Call) (hi : nat)
    (raws : list A) :
  (∀ x w, ∃ k : nat,
      (1 ≤ k ≤ hi)%nat ∧ (f x w).2 = with_calls w (replicate k (c x))) →
  ∀ order slots w, ∃ ks : list nat,
    (length ks ≤ length (omap (λ i, raws !! i) order))%nat
    ∧ Forall (λ k, 1 ≤ k ≤ hi)%nat ks
    ∧ (run_in_order (f <$> raws) order slots w).2
      = with_calls w
          (concat (zip_with (λ k x, replicate k (c x)) ks
                     (omap (λ i, raws !! i) order)))
    ∧ (∀ slots', (run_in_order (f <$> raws) order slots w).1 = Return slots' →
                 length ks = length (omap (λ i, raws !! i) order)).
Proof.
  intros Hf. induction order as [|i order IH]; intros slots w.
  - exists []. simpl. split_and!; [done|constructor| |done].
    by rewrite with_calls_nil.
  - simpl. rewrite list_lookup_fmap. destruct (raws !! i) as [x|]; simpl;
      change (list_omap nat A (λ i0, raws !! i0) order)
        with (omap (λ i0, raws !! i0) order).
    + destruct (Hf x w) as (k & Hk & Hlog). unfold bind.
      destruct (f x w) as [[b|e] w1]; simpl in Hlog; subst w1.
      * destruct (IH (<[i:=Some b]> slots) (with_calls w (replicate k (c x))))
          as (ks & Hlen & Hks & Hw & Hret).
        exists (k :: ks). simpl.
        split_and!; [lia|by constructor| |].
        -- by rewrite Hw, with_calls_app.
        -- intros slots' Hslots'. f_equal. by eapply Hret.
      * exists [k]. simpl. split_and!; [lia|by apply Forall_singleton| |done].
        by rewrite app_nil_r.
    + apply IH.
Qed.

Lemma blocks_of_no_try {A} (c : A → Call) (l : list A) (n : nat) :
  concat (zip_with (λ k x, replicate k (c x)) (replicate n 0%nat) l) = [].
Proof.
  revert n. induction l as [|x l IH]; intros [|n]; simpl; [done..|]. apply IH.
Qed.

(** Elements that are not reached count for no try. *)
Lemma blocks_pad {A} (c : A → Call) (l : list A) :
  ∀ ks : list nat,
    concat (zip_with (λ k x, replicate k (c x))
              (ks ++ replicate (length l - length ks) 0%nat) l)
    = concat (zip_with (λ k x, replicate k (c x)) ks l).
Proof.
  induction l as [|x l IH]; intros [|k ks]; simpl; [done..| |].
  - apply (blocks_of_no_try c l (length l)).
  - f_equal. apply IH.
Qed.

(** The tries of a list follow its elements to another order of the list. *)
Lemma tries_Permutation {A} (l1 l2 : list A) :
  l1 ≡ₚ l2 →
  ∀ ks : list nat, length ks = length l1 →
    ∃ ks2 : list nat,
      length ks2 = length l2 ∧ ks2 ≡ₚ ks ∧ zip ks2 l2 ≡ₚ zip ks l1.
Proof.
  induction 1 as [|x l1 l2 Hperm IH|x y l|l1 l2 l3 H12 IH12 H23 IH23];
    intros ks Hlen.
  - destruct ks; [|done]. by exists [].
  - destruct ks as [|k ks]; [done|]. injection Hlen as Hlen.
    destruct (IH ks Hlen) as (ks2 & Hlen2 & Hks2 & Hzip).
    exists (k :: ks2). simpl. split_and!; [lia|by f_equiv|by f_equiv].
  - destruct ks as [|a [|b ks]]; [done..|]. injection Hlen as Hlen.
    exists (b :: a :: ks). simpl. split_and!; [lia|apply perm_swap..].
  - destruct (IH12 ks Hlen) as (ks2 & Hlen2 & Hks2 & Hzip2).
    destruct (IH23 ks2 Hlen2) as (ks3 & Hlen3 & Hks3 & Hzip3).
    exists ks3. split_and!; [done|by etrans|by etrans].
Qed.

Lemma concat_fmap_Permutation {A B} (g : A → list B) (l1 l2 : list A) :
  l1 ≡ₚ l2 → concat (g <$> l1) ≡ₚ concat (g <$> l2).
Proof.
  induction 1 as [|x l1 l2 Hperm IH|x y l|l1 l2 l3 H12 IH12 H23 IH23]; simpl.
  - done.
  - by f_equiv.
  - rewrite !app_assoc. f_equiv. apply Permutation_app_comm.
  - by etrans.
Qed.

(** X6: the requests of an asynchronous conversion, for a completion order
    that is a permutation of the positions.  The calls it adds are, in some
    order, the request of each record sent at most five times, and at least
    once for every record when the conversion returns.  So at most [5 n]
    requests are sent for [n] records, at least [n] when the conversion
    returns, and nothing else is called. *)
Theorem async_conversion_log (E : Env) (client : Client) (order : list nat)
    (project_id : string) (w : World) :
  (∀ raw_image_nodes,
      order ≡ₚ seq 0 (length raw_image_nodes) →
      let request raw :=
        _build_get_page_screenshot_request E client (ps_file_id (psn_node raw))
          (ps_page_index (psn_node raw)) project_id in
      let run :=
        apage_screenshot_nodes_to_node_with_score E client order
          (Some raw_image_nodes) project_id w in
      ∃ (tries : list nat) (sent : list Call),
        run.2 = with_calls w sent
        ∧ length tries = length raw_image_nodes
        ∧ Forall (λ k, k ≤ 5)%nat tries
        ∧ sent ≡ₚ concat (zip_with
                            (λ k raw, replicate k (Call_send (request raw)))
                            tries raw_image_nodes)
        ∧ (length sent ≤ 5 * length raw_image_nodes)%nat
        ∧ (∀ nodes, run.1 = Return nodes →
                    Forall (λ k, 1 ≤ k)%nat tries
                    ∧ (length raw_image_nodes ≤ length sent)%nat))
  ∧ (∀ raw_figure_nodes,
        order ≡ₚ seq 0 (length raw_figure_nodes) →
        let request raw :=
          _build_get_page_figure_request E client (pf_file_id (pfn_node raw))
            (pf_page_index (pfn_node raw)) (pf_figure_name (pfn_node raw))
            project_id in
        let run :=
          apage_figure_nodes_to_node_with_score E client order
            (Some raw_figure_nodes) project_id w in
        ∃ (tries : list nat) (sent : list Call),
          run.2 = with_calls w sent
          ∧ length tries = length raw_figure_nodes
          ∧ Forall (λ k, k ≤ 5)%nat tries
          ∧ sent ≡ₚ concat (zip_with
                              (λ k raw, replicate k (Call_send (request raw)))
                              tries raw_figure_nodes)
          ∧ (length sent ≤ 5 * length raw_figure_nodes)%nat
          ∧ (∀ nodes, run.1 = Return nodes →
                      Forall (λ k, 1 ≤ k)%nat tries
                      ∧ (length raw_figure_nodes ≤ length sent)%nat)).
Proof.
  assert (∀ {A} (fetch : A → Py bytes) (make : bytes → A → NodeWithScore)
            (c : A → Call) (raws : list A),
    (∀ x w, ∃ k : nat,
        (1 ≤ k ≤ 5)%nat ∧ (fetch x w).2 = with_calls w (replicate k (c x))) →
    order ≡ₚ seq 0 (length raws) →
    let run := (bs ⇐ run_jobs order (fetch <$> raws) ;;
                ret (zip_with make bs raws)) w in
    ∃ (tries : list nat) (sent : list Call),
      run.2 = with_calls w sent
      ∧ length tries = length raws
      ∧ Forall (λ k, k ≤ 5)%nat tries
      ∧ sent ≡ₚ concat (zip_with (λ k raw, replicate k (c raw)) tries raws)
      ∧ (length sent ≤ 5 * length raws)%nat
      ∧ (∀ nodes, run.1 = Return nodes →
                  Forall (λ k, 1 ≤ k)%nat tries
                  ∧ (length raws ≤ length sent)%nat))
    as Hgeneric.
  { intros A fetch make c raws Hfetch Hperm run.
    pose proof (scheduled_Permutation raws order Hperm) as Hsched.
    pose proof (Permutation_length Hsched) as Hlen.
    destruct (run_in_order_log fetch c 5 raws Hfetch order
                (replicate (length (fetch <$> raws)) None) w)
      as (ks & Hks_len & Hks & Hw & Hret).
    pose proof (blocks_length c 5 _ ks Hks_len Hks) as Hblocks.
    assert (run.2 = (run_in_order (fetch <$> raws) order
                       (replicate (length (fetch <$> raws)) None) w).2) as Hrun2.
    { subst run. unfold run_jobs. rewrite !bind_ret_world. done. }
    set (scheduled := omap (λ i, raws !! i) order) in *.
    set (padded := (ks ++ replicate (length scheduled - length ks) 0%nat)%list).
    assert (length padded = length scheduled) as Hpadded.
    { unfold padded. rewrite length_app, length_replicate. lia. }
    destruct (tries_Permutation scheduled raws Hsched padded Hpadded)
      as (tries & Htries_len & Htries & Hzip).
    exists tries,
      (concat (zip_with (λ k x, replicate k (c x)) ks scheduled)).
    split_and!.
    - by rewrite Hrun2, Hw.
    - done.
    - rewrite Htries. unfold padded. apply Forall_app. split.
      + eapply Forall_impl; [exact Hks|]. simpl. lia.
      + apply Forall_replicate. lia.
    - rewrite <- (blocks_pad c scheduled ks). fold padded.
      rewrite !(zip_with_zip (λ k x, replicate k (c x))). symmetry.
      by apply concat_fmap_Permutation.
    - lia.
    - intros nodes Hnodes.
      assert (∃ slots', (run_in_order (fetch <$> raws) order
                           (replicate (length (fetch <$> raws)) None) w).1
                        = Return slots') as [slots' Hslots'].
      { subst run. unfold run_jobs, bind, ret in Hnodes.
        destruct (run_in_order (fetch <$> raws) order
                    (replicate (length (fetch <$> raws)) None) w)
          as [[slots'|e] w1]; [by eexists|done]. }
      specialize (Hret slots' Hslots'). split; [|lia].
      rewrite Htries. unfold padded. rewrite Hret, Nat.sub_diag. simpl.
      rewrite app_nil_r. eapply Forall_impl; [exact Hks|]. simpl. lia. }
  split; intros raws Hperm request run.
  - assert (run = (bs ⇐ run_jobs order
                          ((λ raw, aget_page_screenshot E client
                                     (ps_file_id (psn_node raw))
                                     (ps_page_index (psn_node raw)) project_id)
                             <$> raws) ;;
                   ret (zip_with image_node_with_score bs raws)) w) as ->.
    { subst run. unfold apage_screenshot_nodes_to_node_with_score.
      destruct raws as [|raw raws]; [|done].
      apply Permutation_nil_r in Hperm as ->. done. }
    apply (Hgeneric _ _ image_node_with_score (λ raw, Call_send (request raw)));
      [|done].
    intros raw w1.
    apply (retrying_log is_retryable_http_error _ _
             (λ w, fetch_attempt_log E _ w) 4 w1).
  - assert (run = (bs ⇐ run_jobs order
                          ((λ raw, aget_page_figure E client
                                     (pf_file_id (pfn_node raw))
                                     (pf_page_index (pfn_node raw))
                                     (pf_figure_name (pfn_node raw)) project_id)
                             <$> raws) ;;
                   ret (zip_with figure_node_with_score bs raws)) w) as ->.
    { subst run. unfold apage_figure_nodes_to_node_with_score.
      destruct raws as [|raw raws]; [|done].
      apply Permutation_nil_r in Hperm as ->. done. }
    apply (Hgeneric _ _ figure_node_with_score (λ raw, Call_send (request raw)));
      [|done].
    intros raw w1.
    apply (retrying_log is_retryable_http_error _ _
             (λ w, fetch_attempt_log E _ w) 4 w1).
Qed.

Lemma async_conversion_log_witness :
  ∃ sent,
    (apage_screenshot_nodes_to_node_with_score echo_env example_client
       [1; 0]%nat (Some [record_0; record_1]) "proj-1" w0).2
    = with_calls w0 sent
    ∧ (length sent ≤ 10)%nat
    ∧ (2 ≤ length sent)%nat.
Proof.
  destruct (async_conversion_log echo_env example_client [1; 0]%nat "proj-1"
              w0) as [H _].
  destruct (H [record_0; record_1])
    as (tries & sent & Hw & _ & _ & _ & Hmax & Hmin); [apply perm_swap|].
  exists sent. split_and!; [exact Hw|exact Hmax|].
  edestruct Hmin as [_ Hn]; [vm_compute; reflexivity|exact Hn].
Defined.

(** ** A transport without memory *)

(** When the outcome of [func] does not depend on the world, neither does
    the outcome of the loop. *)
Lemma retrying_same_outcome {A} (p : exn → bool) (func : Py A) :
  (∀ w1 w2, (func w1).1 = (func w2).1) →
  ∀ left w1 w2, (retrying p left func w1).1 = (retrying p left func w2).1.
Proof.
  intros Hfunc. induction left as [|left IH]; intros w1 w2; simpl;
    pose proof (Hfunc w1 w2) as Hw;
    destruct (func w1) as [[a1|e1] w1'], (func w2) as [[a2|e2] w2'];
    simpl in Hw; try discriminate Hw; try exact Hw;
    injection Hw as <-; destruct (p e1); try reflexivity.
  apply IH.
Qed.

Lemma fetch_same_outcome (E : Env) (request : Request) (w1 w2 : World) :
  (∀ h h' request, env_send E h request = env_send E h' request) →
  (retry_on_failure
     (_response ⇐ remote (Call_send request) (λ h, env_send E h request) ;;
      if (200 <=? status_code _response) && (status_code _response <? 300)
      then ret (content _response)
      else raise (ApiError (status_code _response) (text _response))) w1).1
  = (retry_on_failure
       (_response ⇐ remote (Call_send request) (λ h, env_send E h request) ;;
        if (200 <=? status_code _response) && (status_code _response <? 300)
        then ret (content _response)
        else raise (ApiError (status_code _response) (text _response))) w2).1.
Proof.
  intros Hsame. apply retrying_same_outcome. intros w3 w4.
  by rewrite !fetch_attempt_outcome, (Hsame (calls w3) (calls w4)).
Qed.

Lemma fetched_in_turn_returned {A} (fetch : A → Py bytes) (raws : list A)
    (w w' : World) (bs : list bytes) :
  fetched_in_turn fetch raws w bs w' → Forall2 (λ raw b, returned_by (fetch raw) b) raws bs.
Proof.
  induction 1 as [|raw raws w w1 w' b bs Hfetch Hturn IH]; constructor; [|done].
  by exists w, w1.
Qed.

(** With fetches whose outcome does not depend on the world, the loop and
    the job runner give the same bytes. *)
Lemma async_like_sync {A} (fetch : A → Py bytes)
    (make : bytes → A → NodeWithScore) (order : list nat) (raws : list A)
    (w w' : World) (nodes : list NodeWithScore) :
  (∀ raw w1 w2, (fetch raw w1).1 = (fetch raw w2).1) →
  order ≡ₚ seq 0 (length raws) →
  for_each (λ raw, b ⇐ fetch raw ;; ret (make b raw)) raws w = (Return nodes, w') →
  ∃ w'', (bs ⇐ run_jobs order (fetch <$> raws) ;; ret (zip_with make bs raws)) w
         = (Return nodes, w'').
Proof.
  intros Hsame Hperm (bs & Hturn & ->)%for_each_fetch_Return.
  apply fetched_in_turn_returned in Hturn.
  destruct (run_jobs_total (fetch <$> raws) order w) as (bs' & w'' & Hrun).
  { intros job (raw & -> & Hraw)%list_elem_of_fmap w1.
    apply list_elem_of_lookup in Hraw as [i Hi].
    destruct (Forall2_lookup_l _ _ _ _ _ Hturn Hi) as (b & _ & w2 & w3 & Hb).
    pose proof (Hsame raw w1 w2) as Hw. rewrite Hb in Hw. simpl in Hw.
    destruct (fetch raw w1) as [r w4]. simpl in Hw. subst r. by eexists _, _. }
  exists w''. unfold bind. rewrite Hrun. unfold ret. do 2 f_equal.
  f_equal. pose proof Hrun as Hall. apply run_jobs_in_order in Hall;
    [|by rewrite length_fmap].
  apply (Forall2_fmap_l fetch) in Hall.
  pose proof (Forall2_length _ _ _ Hall) as Hlen'.
  pose proof (Forall2_length _ _ _ Hturn) as Hlen.
  apply list_eq_same_length with (length raws); [lia..|].
  intros i b' b Hi Hb' Hb.
  destruct (lookup_lt_is_Some_2 raws i Hi) as [raw Hraw].
  destruct (Forall2_lookup_lr _ _ _ _ _ _ Hall Hraw Hb') as (w1 & w2 & H1).
  destruct (Forall2_lookup_lr _ _ _ _ _ _ Hturn Hraw Hb) as (w3 & w4 & H3).
  pose proof (Hsame raw w1 w3) as Hw. rewrite H1, H3 in Hw. by injection Hw.
Qed.

(** X7: when the answer of the transport to a request does not depend on
    what was sent before, the nodes that a synchronous conversion returns
    are also the nodes that the asynchronous one returns, whatever the
    order in which the event loop carries out the fetches. *)
Theorem async_gives_sync_nodes (E : Env) (client : Client) (order : list nat)
    (project_id : string) (w w' : World) (nodes : list NodeWithScore) :
  (∀ h h' request, env_send E h request = env_send E h' request) →
  (∀ raw_image_nodes,
      order ≡ₚ seq 0 (length raw_image_nodes) →
      page_screenshot_nodes_to_node_with_score E client (Some raw_image_nodes)
        project_id w = (Return nodes, w') →
      ∃ w'',
        apage_screenshot_nodes_to_node_with_score E client order
          (Some raw_image_nodes) project_id w = (Return nodes, w''))
  ∧ (∀ raw_figure_nodes,
        order ≡ₚ seq 0 (length raw_figure_nodes) →
        page_figure_nodes_to_node_with_score E client (Some raw_figure_nodes)
          project_id w = (Return nodes, w') →
        ∃ w'',
          apage_figure_nodes_to_node_with_score E client order
            (Some raw_figure_nodes) project_id w = (Return nodes, w'')).
Proof.
  intros Hsame. split; intros raws Hperm Hsync.
  - rewrite page_screenshot_nodes_for_each in Hsync.
    destruct raws as [|raw raws].
    { injection Hsync as <- <-. by exists w. }
    apply (async_like_sync _ _ order) in Hsync; [done| |done].
    intros raw' w1 w2. by apply fetch_same_outcome.
  - rewrite page_figure_nodes_for_each in Hsync.
    destruct raws as [|raw raws].
    { injection Hsync as <- <-. by exists w. }
    apply (async_like_sync _ _ order) in Hsync; [done| |done].
    intros raw' w1 w2. by apply fetch_same_outcome.
Qed.

Lemma echo_env_same_answer (h h' : list Call) (request : Request) :
  env_send echo_env h request = env_send echo_env h' request.
Proof. reflexivity. Qed.

(** Against the echoing service the two records are converted to the same
    nodes by the synchronous conversion and by the asynchronous one that
    fetches the second record first. *)
Lemma async_gives_sync_nodes_witness :
  ∃ nodes w' w'',
    page_screenshot_nodes_to_node_with_score echo_env example_client
      (Some [record_0; record_1]) "proj-1" w0 = (Return nodes, w')
    ∧ apage_screenshot_nodes_to_node_with_score echo_env example_client
        [1; 0]%nat (Some [record_0; record_1]) "proj-1" w0 = (Return nodes, w'')
    ∧ length nodes = 2%nat.
Proof.
  destruct (page_screenshot_nodes_to_node_with_score echo_env example_client
              (Some [record_0; record_1]) "proj-1" w0) as [[nodes|e] w'] eqn:Hsync;
    [|by vm_compute in Hsync].
  destruct (async_gives_sync_nodes echo_env example_client [1; 0]%nat "proj-1"
              w0 w' nodes echo_env_same_answer) as [H _].
  destruct (H [record_0; record_1]) as [w'' Hasync];
    [apply perm_swap | exact Hsync |].
  exists nodes, w', w''. split_and!; [done..|].
  vm_compute in Hsync. by injection Hsync as <- _.
Defined.

(** ** The legacy aliases *)

(** X8: the two legacy aliases give, on every input, what the functions
    they stand for give: their own test for an empty input changes
    nothing. *)
Theorem legacy_aliases_agree (E : Env) (client : Client) (order : list nat)
    (project_id : string)
    (raw_image_nodes : option (list PageScreenshotNodeWithScore)) :
  image_nodes_to_node_with_score E client raw_image_nodes project_id
  = page_screenshot_nodes_to_node_with_score E client raw_image_nodes project_id
  ∧ aimage_nodes_to_node_with_score E client order raw_image_nodes project_id
    = apage_screenshot_nodes_to_node_with_score E client order raw_image_nodes
        project_id.
Proof. by destruct raw_image_nodes as [[|raw raws]|]. Qed.

(** ** Base64: the payload gives the bytes back *)

Lemma list_ind_3 {A} (P : list A → Prop) :
  P [] → (∀ a, P [a]) → (∀ a b, P [a; b]) →
  (∀ a b c l, P l → P (a :: b :: c :: l)) →
  ∀ l, P l.
Proof.
  intros H0 H1 H2 H3 l.
  assert (P l ∧ (∀ a, P (a :: l)) ∧ (∀ a b, P (a :: b :: l))) as [H _].
  { induction l as [|x l (IH0 & IH1 & IH2)]; [by split_and!|].
    split_and!; [apply IH1|intros a; apply IH2|intros a b; by apply H3]. }
  exact H.
Qed.

(** A test that holds on the numbers 0 to [n - 1] holds below [n]. *)
Lemma below_forallb (P : N → bool) (n : nat) :
  forallb P (N.of_nat <$> seq 0 n) = true →
  ∀ x, (x < N.of_nat n)%N → P x = true.
Proof.
  intros Hall x Hx. rewrite forallb_forall in Hall. apply Hall.
  apply list_elem_of_In, list_elem_of_fmap. exists (N.to_nat x).
  split; [by rewrite N2Nat.id|]. apply elem_of_seq. lia.
Qed.

Lemma below_forallb_2 (P : N → N → bool) (n : nat) :
  forallb (λ x, forallb (P x) (N.of_nat <$> seq 0 n)) (N.of_nat <$> seq 0 n)
  = true →
  ∀ x y, (x < N.of_nat n)%N → (y < N.of_nat n)%N → P x y = true.
Proof.
  intros Hall x y Hx Hy.
  apply (below_forallb (P x) n); [|done].
  by apply (below_forallb (λ x, forallb (P x) (N.of_nat <$> seq 0 n)) n).
Qed.

(** A digit is read back as its number, and is not the padding sign. *)
Lemma b64_digit_index (n : N) :
  (n < 64)%N →
  b64_index (b64_digit n) = Some n ∧ Ascii.eqb (b64_digit n) "=" = false.
Proof.
  intros Hn.
  pose (P := λ n : N,
          (match b64_index (b64_digit n) with
           | Some m => N.eqb m n
           | None => false
           end && negb (Ascii.eqb (b64_digit n) "="))%bool).
  assert (P n = true) as H.
  { apply (below_forallb P 64); [by vm_compute|done]. }
  unfold P in H.
  apply andb_true_iff in H as [Hindex Hpad].
  destruct (b64_index (b64_digit n)) as [m|]; [|done].
  apply N.eqb_eq in Hindex as ->. by apply negb_true_iff in Hpad.
Qed.

(** The four digits of two bytes and what they give back, for all bytes. *)
Lemma b64_first_two (a b : N) :
  (a < 256)%N → (b < 256)%N →
  let d0 := N.shiftr a 2 in
  let d1 := N.lor (N.shiftl (N.land a 3) 4) (N.shiftr b 4) in
  let d1' := N.shiftl (N.land a 3) 4 in
  (d0 < 64)%N ∧ (d1 < 64)%N ∧ (d1' < 64)%N
  ∧ N.lor (N.shiftl d0 2) (N.shiftr d1 4) = a
  ∧ N.lor (N.shiftl d0 2) (N.shiftr d1' 4) = a
  ∧ N.land d1 15 = N.shiftr b 4.
Proof.
  intros Ha Hb d0 d1 d1'.
  pose (P := λ a b,
             ((N.shiftr a 2 <? 64)
             && (N.lor (N.shiftl (N.land a 3) 4) (N.shiftr b 4) <? 64)
             && (N.shiftl (N.land a 3) 4 <? 64)
             && (N.lor (N.shiftl (N.shiftr a 2) 2)
                   (N.shiftr (N.lor (N.shiftl (N.land a 3) 4) (N.shiftr b 4)) 4)
                 =? a)
             && (N.lor (N.shiftl (N.shiftr a 2) 2)
                   (N.shiftr (N.shiftl (N.land a 3) 4) 4) =? a)
             && (N.land (N.lor (N.shiftl (N.land a 3) 4) (N.shiftr b 4)) 15
                 =? N.shiftr b 4))%N).
  assert (P a b = true) as H.
  { apply (below_forallb_2 P 256); [by vm_compute|done..]. }
  unfold P in H. rewrite !andb_true_iff, !N.ltb_lt, !N.eqb_eq in H.
  by destruct H as (((((? & ?) & ?) & ?) & ?) & ?).
Qed.

Lemma b64_last_two (b c : N) :
  (b < 256)%N → (c < 256)%N →
  let d2 := N.lor (N.shiftl (N.land b 15) 2) (N.shiftr c 6) in
  let d2' := N.shiftl (N.land b 15) 2 in
  let d3 := N.land c 63 in
  (d2 < 64)%N ∧ (d2' < 64)%N ∧ (d3 < 64)%N
  ∧ N.lor (N.shiftl (N.shiftr b 4) 4) (N.shiftr d2 2) = b
  ∧ N.lor (N.shiftl (N.shiftr b 4) 4) (N.shiftr d2' 2) = b
  ∧ N.lor (N.shiftl (N.land d2 3) 6) d3 = c.
Proof.
  intros Hb Hc d2 d2' d3.
  pose (P := λ b c,
             ((N.lor (N.shiftl (N.land b 15) 2) (N.shiftr c 6) <? 64)
             && (N.shiftl (N.land b 15) 2 <? 64)
             && (N.land c 63 <? 64)
             && (N.lor (N.shiftl (N.shiftr b 4) 4)
                   (N.shiftr (N.lor (N.shiftl (N.land b 15) 2) (N.shiftr c 6)) 2)
                 =? b)
             && (N.lor (N.shiftl (N.shiftr b 4) 4)
                   (N.shiftr (N.shiftl (N.land b 15) 2) 2) =? b)
             && (N.lor (N.shiftl
                         (N.land (N.lor (N.shiftl (N.land b 15) 2) (N.shiftr c 6))
                            3) 6)
                   (N.land c 63) =? c))%N).
  assert (P b c = true) as H.
  { apply (below_forallb_2 P 256); [by vm_compute|done..]. }
  unfold P in H. rewrite !andb_true_iff, !N.ltb_lt, !N.eqb_eq in H.
  by destruct H as (((((? & ?) & ?) & ?) & ?) & ?).
Qed.

Lemma byte_below_256 (a : byte) : (Byte.to_N a < 256)%N.
Proof. pose proof (Byte.to_N_bounded a). lia. Qed.

Lemma b64decode_group (c0 c1 c2 c3 : ascii) (s' : string) :
  b64decode (String c0 (String c1 (String c2 (String c3 s'))))
  = (i0 ← b64_index c0;
     i1 ← b64_index c1;
     a ← Byte.of_N (N.lor (N.shiftl i0 2) (N.shiftr i1 4));
     if Ascii.eqb c2 "="
     then if Ascii.eqb c3 "=" && String.eqb s' "" then Some [a] else None
     else
       i2 ← b64_index c2;
       b ← Byte.of_N (N.lor (N.shiftl (N.land i1 15) 4) (N.shiftr i2 2));
       if Ascii.eqb c3 "="
       then if String.eqb s' "" then Some [a; b] else None
       else
         i3 ← b64_index c3;
         c ← Byte.of_N (N.lor (N.shiftl (N.land i2 3) 6) i3);
         rest ← b64decode s';
         Some (a :: b :: c :: rest)).
Proof. reflexivity. Qed.

Lemma b64_round_trip (s : bytes) : b64decode (b64encode s) = Some s.
Proof.
  induction s as [|a|a b|a b c s IH] using list_ind_3.
  - reflexivity.
  - destruct (b64_first_two (Byte.to_N a) 0)
      as (Hd0 & _ & Hd1 & _ & Ha & _); [apply byte_below_256|done|].
    destruct (b64_digit_index _ Hd0) as [Hi0 _].
    destruct (b64_digit_index _ Hd1) as [Hi1 _].
    change (b64encode [a])
      with (String (b64_digit (N.shiftr (Byte.to_N a) 2))
              (String (b64_digit (N.shiftl (N.land (Byte.to_N a) 3) 4)) "==")).
    rewrite b64decode_group, Hi0, Hi1. simpl. by rewrite Ha, Byte.of_to_N.
  - destruct (b64_first_two (Byte.to_N a) (Byte.to_N b))
      as (Hd0 & Hd1 & _ & Ha & _ & Hlow); [apply byte_below_256..|].
    destruct (b64_last_two (Byte.to_N b) 0)
      as (_ & Hd2 & _ & _ & Hb & _); [apply byte_below_256|done|].
    destruct (b64_digit_index _ Hd0) as [Hi0 _].
    destruct (b64_digit_index _ Hd1) as [Hi1 _].
    destruct (b64_digit_index _ Hd2) as [Hi2 Hpad2].
    change (b64encode [a; b])
      with (String (b64_digit (N.shiftr (Byte.to_N a) 2))
              (String (b64_digit (N.lor (N.shiftl (N.land (Byte.to_N a) 3) 4)
                                    (N.shiftr (Byte.to_N b) 4)))
                 (String (b64_digit (N.shiftl (N.land (Byte.to_N b) 15) 2))
                    "="))).
    rewrite b64decode_group, Hi0, Hi1. simpl.
    rewrite Ha, Byte.of_to_N. simpl. rewrite Hpad2, Hi2. simpl.
    by rewrite Hlow, Hb, Byte.of_to_N.
  - destruct (b64_first_two (Byte.to_N a) (Byte.to_N b))
      as (Hd0 & Hd1 & _ & Ha & _ & Hlow); [apply byte_below_256..|].
    destruct (b64_last_two (Byte.to_N b) (Byte.to_N c))
      as (Hd2 & _ & Hd3 & Hb & _ & Hc); [apply byte_below_256..|].
    destruct (b64_digit_index _ Hd0) as [Hi0 _].
    destruct (b64_digit_index _ Hd1) as [Hi1 _].
    destruct (b64_digit_index _ Hd2) as [Hi2 Hpad2].
    destruct (b64_digit_index _ Hd3) as [Hi3 Hpad3].
    change (b64encode (a :: b :: c :: s))
      with (String (b64_digit (N.shiftr (Byte.to_N a) 2))
              (String (b64_digit (N.lor (N.shiftl (N.land (Byte.to_N a) 3) 4)
                                    (N.shiftr (Byte.to_N b) 4)))
                 (String (b64_digit (N.lor (N.shiftl (N.land (Byte.to_N b) 15) 2)
                                       (N.shiftr (Byte.to_N c) 6)))
                    (String (b64_digit (N.land (Byte.to_N c) 63))
                       (b64encode s))))).
    rewrite b64decode_group, Hi0, Hi1. simpl.
    rewrite Ha, Byte.of_to_N. simpl. rewrite Hpad2, Hi2. simpl.
    rewrite Hlow, Hb, Byte.of_to_N. simpl. rewrite Hpad3, Hi3. simpl.
    by rewrite Hc, Byte.of_to_N, IH.
Qed.

(** X9: the image payload of a node is base64 text that decodes to the
    bytes it was made from, for screenshot and figure nodes alike; so
    different bytes never give the same payload. *)
Theorem payload_gives_bytes_back :
  (∀ s : bytes, b64decode (b64encode s) = Some s)
  ∧ (∀ s1 s2 : bytes, b64encode s1 = b64encode s2 → s1 = s2)
  ∧ (∀ image_bytes raw_image_node,
        b64decode (image (node (image_node_with_score image_bytes raw_image_node)))
        = Some image_bytes)
  ∧ (∀ figure_bytes raw_figure_node,
        b64decode
          (image (node (figure_node_with_score figure_bytes raw_figure_node)))
        = Some figure_bytes).
Proof.
  split_and!.
  - apply b64_round_trip.
  - intros s1 s2 Heq.
    assert (Some s1 = Some s2) as [= ->]; [|done].
    by rewrite <- (b64_round_trip s1), <- (b64_round_trip s2), Heq.
  - intros image_bytes raw. apply b64_round_trip.
  - intros figure_bytes raw. apply b64_round_trip.
Qed.

Lemma b64_digit_in_alphabet (n : N) :
  b64_digit n ∈ b64_alphabet ∨ b64_digit n = "="%char.
Proof.
  unfold b64_digit.
  destruct (nth_in_or_default (N.to_nat n) b64_alphabet "="%char) as [Hin| ->].
  - left. by apply list_elem_of_In.
  - by right.
Qed.

(** X10: the payload has four characters for every three bytes, the last
    group being filled up: [4 * ceil (n / 3)] characters for [n] bytes, each
    of them a digit of the base64 alphabet or the padding sign. *)
Theorem payload_length_and_alphabet (s : bytes) :
  String.length (b64encode s) = (4 * ((length s + 2) / 3))%nat
  ∧ Forall (λ c, c ∈ b64_alphabet ∨ c = "="%char)
      (String.list_ascii_of_string (b64encode s)).
Proof.
  induction s as [|a|a b|a b c s [IHlen IHall]] using list_ind_3.
  - split; [reflexivity|constructor].
  - split; [reflexivity|].
    repeat (constructor; [first [apply b64_digit_in_alphabet | by right]|]).
    constructor.
  - split; [reflexivity|].
    repeat (constructor; [first [apply b64_digit_in_alphabet | by right]|]).
    constructor.
  - split.
    + change (String.length (b64encode (a :: b :: c :: s)))
        with (4 + String.length (b64encode s))%nat.
      rewrite IHlen.
      replace (length (a :: b :: c :: s) + 2)%nat
        with (length s + 2 + 1 * 3)%nat by (simpl; lia).
      rewrite Nat.div_add by lia. lia.
    + change (b64encode (a :: b :: c :: s))
        with (String (b64_digit (N.shiftr (Byte.to_N a) 2))
                (String (b64_digit (N.lor (N.shiftl (N.land (Byte.to_N a) 3) 4)
                                      (N.shiftr (Byte.to_N b) 4)))
                   (String (b64_digit (N.lor (N.shiftl (N.land (Byte.to_N b) 15) 2)
                                         (N.shiftr (Byte.to_N c) 6)))
                      (String (b64_digit (N.land (Byte.to_N c) 63))
                         (b64encode s))))).
      simpl. repeat (constructor; [apply b64_digit_in_alphabet|]). exact IHall.
Qed.

(** ** Outcomes of the resolvers *)

Lemma new_calls_with_calls (w : World) (cs : list Call) :
  new_calls w (with_calls w cs) = cs.
Proof. unfold new_calls, with_calls. simpl. by rewrite drop_app_length. Qed.

(** X11: [resolve_project_and_pipeline] stops at the first failure.  With a
    pipeline id, an error of the fetch of the pipeline comes out as it is
    after that one call, and no project is looked up; otherwise the project
    of the pipeline is fetched and its error, if any, comes out as it is.
    Without a pipeline id, an error of the project resolution comes out as it
    is and no pipeline is searched; otherwise the search is made in the
    project found.  One or two remote calls are made in all, and no uuid is
    drawn. *)
Theorem resolve_project_and_pipeline_stops (E : Env) (client : Client)
    (pipeline_name project_name project_id organization_id : option string)
    (w : World) :
  (∀ id e,
      env_get_pipeline E (calls w) id = Raise e →
      resolve_project_and_pipeline E client pipeline_name (Some id) project_name
        project_id organization_id w
      = (Raise e, after_call w (Call_get_pipeline id)))
  ∧ (∀ id pipeline,
        env_get_pipeline E (calls w) id = Return pipeline →
        resolve_project_and_pipeline E client pipeline_name (Some id) project_name
          project_id organization_id w
        = (match env_get_project E (calls w ++ [Call_get_pipeline id])
                   (Pipeline_project_id pipeline) with
           | Return project => Return (project, pipeline)
           | Raise e => Raise e
           end,
           after_call (after_call w (Call_get_pipeline id))
             (Call_get_project (Pipeline_project_id pipeline))))
  ∧ (∀ e w1,
        resolve_project E client project_name project_id organization_id w
        = (Raise e, w1) →
        resolve_project_and_pipeline E client pipeline_name None project_name
          project_id organization_id w = (Raise e, w1)
        ∧ length (new_calls w w1) = 1%nat)
  ∧ (∀ project w1,
        resolve_project E client project_name project_id organization_id w
        = (Return project, w1) →
        resolve_project_and_pipeline E client pipeline_name None project_name
          project_id organization_id w
        = (match (resolve_pipeline E client None (Some project) pipeline_name
                    w1).1 with
           | Return pipeline => Return (project, pipeline)
           | Raise e => Raise e
           end,
           after_call w1
             (Call_search_pipelines (Project_id project) pipeline_name
                PipelineType_MANAGED_value)))
  ∧ (∀ pipeline_id,
        let run :=
          resolve_project_and_pipeline E client pipeline_name pipeline_id
            project_name project_id organization_id w in
        (1 ≤ length (new_calls w run.2) ≤ 2)%nat
        ∧ uuids_drawn run.2 = uuids_drawn w).
Proof.
  assert (∀ id, ∃ c,
    (resolve_project E client project_name id organization_id w).2
    = after_call w c) as Hproject.
  { intros [id|]; simpl; [by eexists|].
    unfold bind, remote. eexists.
    destruct (env_list_projects E (calls w) project_name organization_id)
      as [[|p [|p' ps]]|e]; reflexivity. }
  assert (∀ project w1, ∃ r,
    resolve_pipeline E client None (Some project) pipeline_name w1
    = (r, after_call w1 (Call_search_pipelines (Project_id project) pipeline_name
                           PipelineType_MANAGED_value))) as Hpipeline.
  { intros project w1. simpl. unfold bind, remote.
    destruct (env_search_pipelines E (calls w1) (Project_id project) pipeline_name
                PipelineType_MANAGED_value) as [[|p [|p' ps]]|e];
      by eexists. }
  assert (∀ e w1,
    resolve_project E client project_name project_id organization_id w
    = (Raise e, w1) →
    resolve_project_and_pipeline E client pipeline_name None project_name
      project_id organization_id w = (Raise e, w1)) as Hfails.
  { intros e w1 Hp. unfold resolve_project_and_pipeline, bind, ret.
    cbv beta iota zeta. by rewrite Hp. }
  assert (∀ project w1,
    resolve_project E client project_name project_id organization_id w
    = (Return project, w1) →
    resolve_project_and_pipeline E client pipeline_name None project_name
      project_id organization_id w
    = (match (resolve_pipeline E client None (Some project) pipeline_name
                w1).1 with
       | Return pipeline => Return (project, pipeline)
       | Raise e => Raise e
       end,
       after_call w1
         (Call_search_pipelines (Project_id project) pipeline_name
            PipelineType_MANAGED_value))) as Hfound.
  { intros project w1 Hp. unfold resolve_project_and_pipeline, bind, ret.
    cbv beta iota zeta. rewrite Hp.
    destruct (Hpipeline project w1) as [[pl|e] ->]; reflexivity. }
  assert (∀ id,
    resolve_project_and_pipeline E client pipeline_name (Some id) project_name
      project_id organization_id w
    = match env_get_pipeline E (calls w) id with
      | Return pipeline =>
          (match env_get_project E (calls w ++ [Call_get_pipeline id])
                   (Pipeline_project_id pipeline) with
           | Return project => Return (project, pipeline)
           | Raise e => Raise e
           end,
           after_call (after_call w (Call_get_pipeline id))
             (Call_get_project (Pipeline_project_id pipeline)))
      | Raise e => (Raise e, after_call w (Call_get_pipeline id))
      end) as Hid.
  { intros id.
    unfold resolve_project_and_pipeline, resolve_pipeline, resolve_project,
      bind, ret, remote.
    cbv beta iota zeta.
    destruct (env_get_pipeline E (calls w) id) as [pl|e]; [|done].
    cbv beta iota zeta. simpl.
    by destruct (env_get_project E (calls w ++ [Call_get_pipeline id])
                   (Pipeline_project_id pl)). }
  split_and!.
  - intros id e He. by rewrite Hid, He.
  - intros id pl Hpl. by rewrite Hid, Hpl.
  - intros e w1 Hp. split; [by apply Hfails|].
    destruct (Hproject project_id) as [c Hc]. rewrite Hp in Hc. simpl in Hc.
    subst w1. by rewrite new_calls_after_call.
  - exact Hfound.
  - intros [id|] run; subst run.
    + rewrite Hid. destruct (env_get_pipeline E (calls w) id) as [pl|e]; simpl.
      * rewrite <- (with_calls_one (after_call _ _)), with_calls_after_call,
          new_calls_with_calls. simpl. split; [lia|done].
      * rewrite new_calls_after_call. simpl. split; [lia|done].
    + destruct (Hproject project_id) as [c Hc].
      destruct (resolve_project E client project_name project_id organization_id
                  w) as [[project|e] w1] eqn:Hp; simpl in Hc; subst w1.
      * rewrite (Hfound _ _ eq_refl). simpl.
        rewrite <- (with_calls_one (after_call _ _)), with_calls_after_call,
          new_calls_with_calls. simpl. split; [lia|done].
      * rewrite (Hfails _ _ eq_refl). simpl. rewrite new_calls_after_call.
        simpl. split; [lia|done].
Qed.

(** X12: the exceptions of [resolve_retriever].  With [persisted] true it
    raises none of its own: the exception is the one the service raised, on
    the fetch by a non-empty id or on the listing by a non-empty name, after
    that one call.  With [persisted] false it raises only when no name is
    given: the [ValidationError] of the retriever it builds, after the uuid
    is drawn and with no remote call. *)
Theorem resolve_retriever_exceptions (E : Env) (client : Client)
    (project : Project) (name id : option string) (persisted : bool)
    (w w' : World) (e : exn) :
  resolve_retriever E client project name id persisted w = (Raise e, w') →
  (persisted = true
   ∧ ((∃ rid,
          id = Some rid ∧ rid ≠ ""
          ∧ env_get_retriever E (calls w) rid (Project_id project) = Raise e
          ∧ w' = after_call w (Call_get_retriever rid (Project_id project)))
      ∨ (∃ n,
            (id = None ∨ id = Some "") ∧ name = Some n ∧ n ≠ ""
            ∧ env_list_retrievers E (calls w) (Project_id project) n = Raise e
            ∧ w' = after_call w (Call_list_retrievers (Project_id project) n))))
  ∨ (persisted = false
     ∧ name = None
     ∧ e = ValidationError "Retriever" "name"
     ∧ w' = mkWorld (calls w) (S (uuids_drawn w))).
Proof.
  unfold resolve_retriever. destruct persisted; simpl.
  - intros Hrun. left. split; [done|].
    destruct (if_truthy id) as [rid|] eqn:Hid.
    + left. exists rid. unfold bind, remote in Hrun.
      assert (id = Some rid ∧ rid ≠ "") as [-> Hrid].
      { unfold if_truthy, truthy in Hid. destruct id as [s|]; [|done].
        destruct (String.eqb_spec s ""); simpl in Hid; [done|].
        by injection Hid as ->. }
      destruct (env_get_retriever E (calls w) rid (Project_id project));
        [done|]. by injection Hrun as -> <-.
    + right. apply if_truthy_None in Hid.
      destruct (if_truthy name) as [n|] eqn:Hname; [|done].
      exists n. unfold bind, remote in Hrun.
      assert (name = Some n ∧ n ≠ "") as [-> Hn].
      { unfold if_truthy, truthy in Hname. destruct name as [s|]; [|done].
        destruct (String.eqb_spec s ""); simpl in Hname; [done|].
        by injection Hname as ->. }
      destruct (env_list_retrievers E (calls w) (Project_id project) n);
        [done|]. by injection Hrun as -> <-.
  - unfold bind, uuid4_str, Retriever_init, ret, raise.
    destruct name as [n|]; [done|]. intros [= <- <-]. by right.
Qed.

(** The id [nope] names no retriever: the 404 of the service comes out. *)
Lemma resolve_retriever_exceptions_witness :
  resolve_retriever (demo_env []) example_client project_a (Some "main")
    (Some "nope") true w0
  = (Raise (ApiError 404 "retriever not found"),
     after_call w0 (Call_get_retriever "nope" "proj-1"))
  ∧ env_get_retriever (demo_env []) (calls w0) "nope" (Project_id project_a)
    = Raise (ApiError 404 "retriever not found").
Proof.
  split; [reflexivity|].
  destruct (resolve_retriever_exceptions (demo_env []) example_client
              project_a (Some "main") (Some "nope") true w0
              (after_call w0 (Call_get_retriever "nope" "proj-1"))
              (ApiError 404 "retriever not found") eq_refl)
    as [[_ [(rid & [= <-] & _ & Hget & _)|(n & [[=]|[=]] & _)]]|[[=] _]].
  exact Hget.
Defined.

(** X13: what [resolve_project] and [resolve_pipeline] give is the answer of
    the service, never a choice of their own.  A project or pipeline is
    returned only as the answer to the fetch by id or as the one element of
    the listing.  An exception is the one the service raised, or a
    [ValueError] in the lookup by name when the listing does not have exactly
    one element, or, for a pipeline looked up by name with no project at
    hand, an [AttributeError] raised before any call. *)
Theorem resolved_entity_is_remote_answer (E : Env) (client : Client)
    (name organization_id : option string) (w : World) :
  (∀ id found w',
      resolve_project E client name id organization_id w = (Return found, w') →
      match id with
      | Some id =>
          env_get_project E (calls w) id = Return found
          ∧ w' = after_call w (Call_get_project id)
      | None =>
          env_list_projects E (calls w) name organization_id = Return [found]
          ∧ w' = after_call w (Call_list_projects name organization_id)
      end)
  ∧ (∀ id e w',
        resolve_project E client name id organization_id w = (Raise e, w') →
        match id with
        | Some id => env_get_project E (calls w) id = Raise e
        | None =>
            env_list_projects E (calls w) name organization_id = Raise e
            ∨ ∃ projects msg,
                env_list_projects E (calls w) name organization_id
                = Return projects
                ∧ length projects ≠ 1%nat
                ∧ e = ValueError msg
        end)
  ∧ (∀ id scope found w',
        resolve_pipeline E client id scope name w = (Return found, w') →
        match id with
        | Some id =>
            env_get_pipeline E (calls w) id = Return found
            ∧ w' = after_call w (Call_get_pipeline id)
        | None =>
            ∃ project,
              scope = Some project
              ∧ env_search_pipelines E (calls w) (Project_id project) name
                  PipelineType_MANAGED_value = Return [found]
              ∧ w' = after_call w
                       (Call_search_pipelines (Project_id project) name
                          PipelineType_MANAGED_value)
        end)
  ∧ (∀ id scope e w',
        resolve_pipeline E client id scope name w = (Raise e, w') →
        match id, scope with
        | Some id, _ => env_get_pipeline E (calls w) id = Raise e
        | None, None =>
            e = AttributeError "'NoneType' object has no attribute 'id'" ∧ w' = w
        | None, Some project =>
            env_search_pipelines E (calls w) (Project_id project) name
              PipelineType_MANAGED_value = Raise e
            ∨ ∃ pipelines msg,
                env_search_pipelines E (calls w) (Project_id project) name
                  PipelineType_MANAGED_value = Return pipelines
                ∧ length pipelines ≠ 1%nat
                ∧ e = ValueError msg
        end).
Proof.
  split_and!.
  - intros [id|] found w'; simpl; unfold bind, remote.
    + by intros [= -> <-].
    + destruct (env_list_projects E (calls w) name organization_id)
        as [[|p [|p' ps]]|e]; try done. by intros [= -> <-].
  - intros [id|] e w'; simpl; unfold bind, remote.
    + by intros [= -> _].
    + destruct (env_list_projects E (calls w) name organization_id)
        as [[|p [|p' ps]]|e'].
      * intros [= <- _]. right. by eexists [], _.
      * done.
      * intros [= <- _]. right. by eexists (p :: p' :: ps), _.
      * intros [= -> _]. by left.
  - intros [id|] scope found w'; simpl; unfold bind, remote.
    + by intros [= -> <-].
    + destruct scope as [project|]; [|done].
      destruct (env_search_pipelines E (calls w) (Project_id project) name
                  PipelineType_MANAGED_value) as [[|p [|p' ps]]|e] eqn:Hsearch;
        try done.
      intros [= -> <-]. by exists project.
  - intros [id|] scope e w'; simpl; unfold bind, remote.
    + by intros [= -> _].
    + destruct scope as [project|].
      * destruct (env_search_pipelines E (calls w) (Project_id project) name
                    PipelineType_MANAGED_value) as [[|p [|p' ps]]|e'].
        -- intros [= <- _]. right. by eexists [], _.
        -- done.
        -- intros [= <- _]. right. by eexists (p :: p' :: ps), _.
        -- intros [= -> _]. by left.
      * by intros [= <- <-].
Qed.

(** ** The metadata of a node *)

(** X14: the metadata of a node has the keys of the record's own metadata
    and the derived keys, and no other: [file_id] and [page_index], and
    [figure_name] for a figure.  The derived keys hold the values of the
    record, whatever its metadata had under these names, and every other key
    keeps the value the record had for it. *)
Theorem node_metadata_keys (image_bytes : bytes)
    (raw_image_node : PageScreenshotNodeWithScore)
    (raw_figure_node : PageFigureNodeWithScore) :
  let own := default ∅ (ps_metadata (psn_node raw_image_node)) in
  let made := metadata (node (image_node_with_score image_bytes raw_image_node)) in
  let own_fig := default ∅ (pf_metadata (pfn_node raw_figure_node)) in
  let made_fig :=
    metadata (node (figure_node_with_score image_bytes raw_figure_node)) in
  dom made = {["page_index"; "file_id"]} ∪ dom own
  ∧ made !! "file_id" = Some (PyStr (ps_file_id (psn_node raw_image_node)))
  ∧ made !! "page_index" = Some (PyInt (ps_page_index (psn_node raw_image_node)))
  ∧ (∀ k, k ≠ "file_id" → k ≠ "page_index" → made !! k = own !! k)
  ∧ dom made_fig = {["figure_name"; "page_index"; "file_id"]} ∪ dom own_fig
  ∧ made_fig !! "file_id" = Some (PyStr (pf_file_id (pfn_node raw_figure_node)))
  ∧ made_fig !! "page_index"
    = Some (PyInt (pf_page_index (pfn_node raw_figure_node)))
  ∧ made_fig !! "figure_name"
    = Some (PyStr (pf_figure_name (pfn_node raw_figure_node)))
  ∧ (∀ k, k ≠ "file_id" → k ≠ "page_index" → k ≠ "figure_name" →
          made_fig !! k = own_fig !! k).
Proof.
  intros own made own_fig made_fig. subst made made_fig. simpl.
  unfold image_node_metadata, figure_node_metadata. fold own own_fig.
  split_and!.
  - rewrite !dom_insert_L. by rewrite !(assoc_L (∪)).
  - rewrite lookup_insert_ne by done. by rewrite lookup_insert_eq.
  - by rewrite lookup_insert_eq.
  - intros k H1 H2. rewrite lookup_insert_ne by done.
    by rewrite lookup_insert_ne.
  - rewrite !dom_insert_L. by rewrite !(assoc_L (∪)).
  - rewrite lookup_insert_ne by done. rewrite lookup_insert_ne by done.
    by rewrite lookup_insert_eq.
  - rewrite lookup_insert_ne by done. by rewrite lookup_insert_eq.
  - by rewrite lookup_insert_eq.
  - intros k H1 H2 H3. rewrite lookup_insert_ne by done.
    rewrite lookup_insert_ne by done. by rewrite lookup_insert_ne.
Qed.
